(** * Vector Fleet Solver: the firing-solution core of [vector_fleet_solver.py]

    A shallow embedding of [clamp], [angle_for_range], [norm], [unit] and
    [solve_fire], and the properties of the range-angle inverter and of the
    iterative intercept solver.

    Numbers.  For what the algorithm computes, Python floats are read as
    mathematical reals ([R] of the Standard Library): rounding, overflow,
    underflow, signed zeros, infinities and NaN are outside that reading.
    The functions of [math] are their real counterparts ([asin], [cos],
    [sqrt]; [atan2] is defined below from [atan]).  The literal
    [3.141592653589793] of [angle_for_range] is the binary64 value of
    [math.pi]; as every float stands for the real it approximates, it is
    read as [PI].  The other literals ([9.81], [1e-6], [0.5]) are the
    decimal numbers written in the source.

    Whether the arithmetic itself can fail is a question the real reading
    cannot answer: over [R] a square is never rounded to zero and never out
    of range.  Module [Binary64] therefore embeds the same functions a
    second time on the primitive binary64 floats, with the functions of
    libm that the kernel does not have ([asin], [cos], [atan2]) as
    parameters; it is used where a statement is about exceptions.

    Exceptions.  The operations that raise in Python (float division by
    zero, [math.sqrt] and [math.asin] outside their domain, the explicit
    [raise ValueError]) return in an error monad, so that "raises nothing"
    is a theorem about the result and not a convention. *)

From Stdlib Require Import Reals Lra ZArith Lia Bool String List.
From Stdlib Require PrimFloat.
Import ListNotations.

Open Scope R_scope.

(** ** Exceptions and the error monad *)

Inductive exn : Type :=
| ValueError (msg : string)
| ZeroDivisionError (msg : string)
| OverflowError (msg : string).

Inductive result (A : Type) : Type :=
| Ok (a : A)
| Raise (e : exn).

Arguments Ok {A} a.
Arguments Raise {A} e.

Definition ret {A : Type} (a : A) : result A := Ok a.

Definition bind {A B : Type} (c : result A) (k : A -> result B) : result B :=
  match c with
  | Ok a => k a
  | Raise e => Raise e
  end.

Notation "x <- c ;; k" := (bind c (fun x => k))
  (at level 61, c at next level, right associativity).
Notation "' pat <- c ;; k" := (bind c (fun x => match x with pat => k end))
  (at level 61, pat pattern, c at next level, right associativity).

(** ** Comparisons and the fallible primitives *)

Definition Rltb (x y : R) : bool := if Rlt_dec x y then true else false.
Definition Rleb (x y : R) : bool := if Rle_dec x y then true else false.
Definition Rgtb (x y : R) : bool := Rltb y x.
Definition Reqb (x y : R) : bool := if Req_dec_T x y then true else false.

Infix "<?" := Rltb (at level 70, no associativity) : R_scope.
Infix "<=?" := Rleb (at level 70, no associativity) : R_scope.
Infix ">?" := Rgtb (at level 70, no associativity) : R_scope.
Infix "=?" := Reqb (at level 70, no associativity) : R_scope.

(** [x / y] on floats: [ZeroDivisionError] when the divisor is zero. *)
Definition py_div (x y : R) : result R :=
  if y =? 0 then Raise (ZeroDivisionError "float division by zero")
  else Ok (x / y).

(** [math.sqrt]: [ValueError] on a negative argument. *)
Definition py_sqrt (x : R) : result R :=
  if x <? 0 then Raise (ValueError "math domain error") else Ok (sqrt x).

(** [math.asin]: [ValueError] outside [-1, 1]. *)
Definition py_asin (x : R) : result R :=
  if (x <? -1) || (x >? 1) then Raise (ValueError "math domain error")
  else Ok (asin x).

(** The builtin [max] of two arguments keeps the first unless the second is
    strictly greater. *)
Definition py_max (a b : R) : R := if b >? a then b else a.

(** [math.atan2(y, x)], the angle of the point [(x, y)]; over the reals it
    lies in (-PI, PI].  On floats [math.atan2] also returns [-pi], for
    [y = -0.0] with [x < 0] and by rounding, so only the closed interval
    [-PI, PI] is a property of the source. *)
Definition atan2 (y x : R) : R :=
  if 0 <? x then atan (y / x)
  else if x <? 0 then
    (if 0 <=? y then atan (y / x) + PI else atan (y / x) - PI)
  else if 0 <? y then PI / 2
  else if y <? 0 then - (PI / 2)
  else 0.

(** [math.degrees]. *)
Definition degrees (x : R) : R := x * (180 / PI).

(** [math.radians]. *)
Definition radians (x : R) : R := x * (PI / 180).

(** ** Module constants and the small helpers *)

Definition G : R := 9.81.

(** A dict with string keys, as the list of its items in insertion order;
    [dict_get d k] is [d[k]], with [None] for the [KeyError]. *)
Fixpoint dict_get {A : Type} (d : list (string * A)) (k : string) : option A :=
  match d with
  | [] => None
  | (k', v) :: d' => if String.eqb k' k then Some v else dict_get d' k
  end.

(** Ship data (muzzle velocities in m/s). *)
Definition SHIPS : list (string * list (string * R)) :=
  [ ("Midway", [("muzzle_velocity", 762.0)]);
    ("Alabama", [("muzzle_velocity", 701.0)]);
    ("Atlanta", [("muzzle_velocity", 790.0)]);
    ("Dolphin", [("muzzle_velocity", 18.0)]);
    ("Farragut", [("muzzle_velocity", 790.0)]) ]%string.

(** The literal [3.141592653589793], the float [math.pi]. *)
Definition pi_literal : R := PI.

(** [heading_speed_to_vxvy(speed_mps, heading_deg)]. *)
Definition heading_speed_to_vxvy (speed_mps heading_deg : R) : R * R :=
  let th := radians heading_deg in
  let vx := speed_mps * cos th in
  let vy := speed_mps * sin th in
  (vx, vy).

Definition clamp (x lo hi : R) : R :=
  if x <? lo then lo else if x >? hi then hi else x.

(** [angle_for_range(v0, R, g)]: [Ok None] is the source's [return None]. *)
Definition angle_for_range (v0 Rng g : R) : result (option (R * R)) :=
  arg <- py_div (g * Rng) (v0 ^ 2) ;;
  if (arg <? -1) || (arg >? 1) then ret None
  else
    two_theta <- py_asin (clamp arg (-1) 1) ;;
    let low := 0.5 * two_theta in
    let high := 0.5 * (pi_literal - two_theta) in
    ret (Some (low, high)).

Definition norm (dx dy : R) : result R := py_sqrt (dx * dx + dy * dy).

Definition unit (dx dy : R) : result (R * R) :=
  n <- norm dx dy ;;
  if n =? 0 then ret (0, 0)
  else
    ux <- py_div dx n ;;
    uy <- py_div dy n ;;
    ret (ux, uy).

(** ** The result of [solve_fire]

    The source returns a dict; a key holding [None] is a field holding
    [None], and [max_range_m], which only the out-of-range dict has, is
    [None] where the key is missing. *)

Record solution : Type := {
  reachable : bool;
  theta_deg : option R;
  azimuth_deg : option R;
  time_s : option R;
  impact_xy : option (R * R);
  predicted_target_xy : option (R * R);
  iterations : Z;
  low_high_deg : option (R * R);
  max_range_m : option R
}.

(** The names an iteration leaves bound for the code after the loop, which
    asks for them with ['dx' in locals()], ['R' in locals()] and
    ['xt' in locals()].  The five are assigned together at the head of the
    loop body, so the three tests agree: [None] is "the body never ran". *)
Record iter_locals : Type := {
  loc_dx : R;
  loc_dy : R;
  loc_R : R;
  loc_xt : R;
  loc_yt : R
}.

(** What the loop carries from one iteration to the next. *)
Record loop_state : Type := {
  st_t : R;
  st_theta_rad : option R;
  st_azimuth_rad : option R;
  st_locals : option iter_locals
}.

(** An iteration either executes a [return] or lets the loop go on. *)
Inductive step_result : Type :=
| Return (s : solution)
| Continue (st : loop_state).

Section Solver.

Variables own_pos target_pos own_vel target_vel wind_vel : R * R.
Variable v0 : R.
Variable prefer_high_arc : bool.
Variable max_iters : Z.
Variable tol_time : R.

Let x0 := fst own_pos.
Let y0 := snd own_pos.
Let xt0 := fst target_pos.
Let yt0 := snd target_pos.
Let vox := fst own_vel.
Let voy := snd own_vel.
Let vtx := fst target_vel.
Let vty := snd target_vel.
Let vwx := fst wind_vel.
Let vwy := snd wind_vel.

(** Lines 126-132: the straight-line range, the check of [v0] and the
    first time estimate. *)
Definition seed : result R :=
  let dx0 := xt0 - x0 in
  let dy0 := yt0 - y0 in
  R0 <- norm dx0 dy0 ;;
  if v0 <=? 0 then Raise (ValueError "Muzzle velocity must be positive.")
  else
    vx_guess <- py_div v0 (Rpower 2 0.5) ;;
    py_div R0 (py_max vx_guess 1e-6).

Definition init_state (t : R) : loop_state :=
  {| st_t := t; st_theta_rad := None; st_azimuth_rad := None;
     st_locals := None |}.

(** Lines 138-191: the body of the [for] loop at counter [it], entered
    with the time estimate [t]. *)
Definition iteration (it : Z) (t : R) : result step_result :=
  let xt := xt0 + vtx * t in
  let yt := yt0 + vty * t in
  let xc := xt - vox * t - vwx * t in
  let yc := yt - voy * t - vwy * t in
  let dx := xc - x0 in
  let dy := yc - y0 in
  Rng <- norm dx dy ;;
  roots <- angle_for_range v0 Rng G ;;
  match roots with
  | None =>
      let azimuth_rad := atan2 dy dx in
      max_range <- py_div (v0 ^ 2) G ;;
      ret (Return
        {| reachable := false;
           theta_deg := None;
           azimuth_deg := Some (degrees azimuth_rad);
           time_s := None;
           impact_xy := None;
           predicted_target_xy := Some (xt, yt);
           iterations := it;
           low_high_deg := None;
           max_range_m := Some max_range |})
  | Some (low, high) =>
      let theta_rad := if prefer_high_arc then high else low in
      let azimuth_rad := atan2 dy dx in
      let vx := v0 * cos theta_rad in
      let vx := if Rabs vx <? 1e-6 then 1e-6 else vx in
      t_new <- py_div Rng vx ;;
      if Rabs (t_new - t) <? tol_time then
        let t := t_new in
        '(ux, uy) <- unit dx dy ;;
        let impact_x := x0 + ux * Rng + (vox + vwx) * t in
        let impact_y := y0 + uy * Rng + (voy + vwy) * t in
        ret (Return
          {| reachable := true;
             theta_deg := Some (degrees theta_rad);
             azimuth_deg := Some (degrees azimuth_rad);
             time_s := Some t_new;
             impact_xy := Some (impact_x, impact_y);
             predicted_target_xy := Some (xt, yt);
             iterations := it;
             low_high_deg := Some (degrees low, degrees high);
             max_range_m := None |})
      else
        ret (Continue
          {| st_t := t_new;
             st_theta_rad := Some theta_rad;
             st_azimuth_rad := Some azimuth_rad;
             st_locals := Some {| loc_dx := dx; loc_dy := dy; loc_R := Rng;
                                  loc_xt := xt; loc_yt := yt |} |})
  end.

(** [for it in range(it, it + n)]: [n] iterations are left.  The answer
    is [Return s] when one of them returned [s], and [Continue st] when
    the range ran out in state [st]. *)
Fixpoint for_loop (n : nat) (it : Z) (st : loop_state) : result step_result :=
  match n with
  | O => ret (Continue st)
  | S n' =>
      r <- iteration it (st_t st) ;;
      match r with
      | Return s => ret (Return s)
      | Continue st' => for_loop n' (it + 1)%Z st'
      end
  end.

(** Lines 193-206: the code after the loop. *)
Definition after_loop (st : loop_state) : result solution :=
  let t := st_t st in
  '(ux, uy) <- match st_locals st with
               | Some l => unit (loc_dx l) (loc_dy l)
               | None => ret (1, 0)
               end ;;
  let impact_x :=
    match st_locals st with
    | Some l => Some (x0 + ux * loc_R l + (vox + vwx) * t)
    | None => None
    end in
  let impact_y :=
    match st_locals st with
    | Some l => Some (y0 + uy * loc_R l + (voy + vwy) * t)
    | None => None
    end in
  ret {| reachable := true;
         theta_deg := option_map degrees (st_theta_rad st);
         azimuth_deg := option_map degrees (st_azimuth_rad st);
         time_s := Some t;
         impact_xy := match impact_x, impact_y with
                      | Some ix, Some iy => Some (ix, iy)
                      | _, _ => None
                      end;
         predicted_target_xy :=
           match st_locals st with
           | Some l => Some (loc_xt l, loc_yt l)
           | None => None
           end;
         iterations := max_iters;
         low_high_deg := None;
         max_range_m := None |}.

Definition solve_fire : result solution :=
  t <- seed ;;
  r <- for_loop (Z.to_nat max_iters) 1%Z (init_state t) ;;
  match r with
  | Return s => ret s
  | Continue st => after_loop st
  end.

(** The values of [(xt, yt)] and of [(dx, dy)] in an iteration entered with
    the time estimate [t] (lines 139-146), named for the statements below. *)
Definition predicted_target (t : R) : R * R :=
  (xt0 + vtx * t, yt0 + vty * t).

Definition displacement (t : R) : R * R :=
  (xt0 + vtx * t - vox * t - vwx * t - x0,
   yt0 + vty * t - voy * t - vwy * t - y0).

(** [reaches t0 it st]: started from the seed [t0], the loop gets to the
    head of iteration [it] in state [st], no earlier iteration having
    returned. *)
Inductive reaches (t0 : R) : Z -> loop_state -> Prop :=
| reaches_first : reaches t0 1%Z (init_state t0)
| reaches_next it st st' :
    reaches t0 it st ->
    iteration it (st_t st) = Ok (Continue st') ->
    reaches t0 (it + 1)%Z st'.

End Solver.

(** The horizontal speed of lines 169-171, with its floor, named for the
    statements below. *)
Definition horizontal_speed (v0 theta_rad : R) : R :=
  let vx := v0 * cos theta_rad in
  if Rabs vx <? 1e-6 then 1e-6 else vx.

(** ** Predicates on loop states and results, for the statements below *)

(** A state left by an iteration that went on with the time estimate [t],
    the elevation [theta] and the azimuth [az]. *)
Definition warm (t theta az : R) (st : loop_state) : Prop :=
  st_t st = t /\
  st_theta_rad st = Some theta /\
  st_azimuth_rad st = Some az.

(** A result returned by an iteration that met the tolerance with the
    elevation [theta], the azimuth [az] and the roots [(low, high)]. *)
Definition aimed (theta az low high : R) (s : solution) : Prop :=
  reachable s = true /\
  theta_deg s = Some (degrees theta) /\
  azimuth_deg s = Some (degrees az) /\
  low_high_deg s = Some (degrees low, degrees high).

(** * The same functions on binary64

    The operations are those of IEEE 754 as the kernel evaluates them.
    Where Python raises instead of returning an infinity or a NaN, the
    model raises: float division by zero, [math.sqrt] of a negative number,
    [math.asin] outside [-1, 1], [math.cos] of an infinity, and a power of
    finite operands that overflows.  [asin], [cos] and [atan2] are the
    functions of the platform's libm and stay parameters. *)

Set Warnings "-inexact-float".

Module Binary64.

Import PrimFloat.
Local Open Scope float_scope.

Definition G : float := 9.81.

Definition py_div (x y : float) : result float :=
  if y =? 0 then Raise (ZeroDivisionError "float division by zero")
  else Ok (x / y).

Definition py_sqrt (x : float) : result float :=
  if x <? 0 then Raise (ValueError "math domain error") else Ok (sqrt x).

(** [x ** 2]: the correctly rounded square; an infinite result from a
    finite [x] is Python's [OverflowError], a result rounded to zero is
    returned as it is. *)
Definition py_pow2 (x : float) : result float :=
  let r := x * x in
  if is_infinity r && negb (is_infinity x)
  then Raise (OverflowError "(34, 'Numerical result out of range')")
  else Ok r.

(** [2 ** 0.5], the float nearest to the square root of 2. *)
Definition two_pow_half : float := sqrt 2.

Definition py_max (a b : float) : float := if a <? b then b else a.

Definition degrees (x : float) : float := x * (180 / 3.141592653589793).

Definition clamp (x lo hi : float) : float :=
  if x <? lo then lo else if hi <? x then hi else x.

Definition norm (dx dy : float) : result float := py_sqrt (dx * dx + dy * dy).

Definition unit (dx dy : float) : result (float * float) :=
  n <- norm dx dy ;;
  if n =? 0 then ret (0, 0)
  else
    ux <- py_div dx n ;;
    uy <- py_div dy n ;;
    ret (ux, uy).

Record solution : Type := {
  reachable : bool;
  theta_deg : option float;
  azimuth_deg : option float;
  time_s : option float;
  impact_xy : option (float * float);
  predicted_target_xy : option (float * float);
  iterations : Z;
  low_high_deg : option (float * float);
  max_range_m : option float
}.

Record iter_locals : Type := {
  loc_dx : float;
  loc_dy : float;
  loc_R : float;
  loc_xt : float;
  loc_yt : float
}.

Record loop_state : Type := {
  st_t : float;
  st_theta_rad : option float;
  st_azimuth_rad : option float;
  st_locals : option iter_locals
}.

Inductive step_result : Type :=
| Return (s : solution)
| Continue (st : loop_state).

Section Libm.

Variables asin cos : float -> float.
Variable atan2 : float -> float -> float.

Definition py_asin (x : float) : result float :=
  if (x <? -1) || (1 <? x) then Raise (ValueError "math domain error")
  else Ok (asin x).

Definition py_cos (x : float) : result float :=
  if is_infinity x then Raise (ValueError "math domain error")
  else Ok (cos x).

Definition angle_for_range (v0 Rng g : float)
  : result (option (float * float)) :=
  v0_sq <- py_pow2 v0 ;;
  arg <- py_div (g * Rng) v0_sq ;;
  if (arg <? -1) || (1 <? arg) then ret None
  else
    two_theta <- py_asin (clamp arg (-1) 1) ;;
    let low := 0.5 * two_theta in
    let high := 0.5 * (3.141592653589793 - two_theta) in
    ret (Some (low, high)).

Variables own_pos target_pos own_vel target_vel wind_vel : float * float.
Variable v0 : float.
Variable prefer_high_arc : bool.
Variable max_iters : Z.
Variable tol_time : float.

Let x0 := fst own_pos.
Let y0 := snd own_pos.
Let xt0 := fst target_pos.
Let yt0 := snd target_pos.
Let vox := fst own_vel.
Let voy := snd own_vel.
Let vtx := fst target_vel.
Let vty := snd target_vel.
Let vwx := fst wind_vel.
Let vwy := snd wind_vel.

Definition seed : result float :=
  let dx0 := xt0 - x0 in
  let dy0 := yt0 - y0 in
  R0 <- norm dx0 dy0 ;;
  if v0 <=? 0 then Raise (ValueError "Muzzle velocity must be positive.")
  else
    vx_guess <- py_div v0 two_pow_half ;;
    py_div R0 (py_max vx_guess 1e-6).

Definition init_state (t : float) : loop_state :=
  {| st_t := t; st_theta_rad := None; st_azimuth_rad := None;
     st_locals := None |}.

Definition iteration (it : Z) (t : float) : result step_result :=
  let xt := xt0 + vtx * t in
  let yt := yt0 + vty * t in
  let xc := xt - vox * t - vwx * t in
  let yc := yt - voy * t - vwy * t in
  let dx := xc - x0 in
  let dy := yc - y0 in
  Rng <- norm dx dy ;;
  roots <- angle_for_range v0 Rng G ;;
  match roots with
  | None =>
      let azimuth_rad := atan2 dy dx in
      v0_sq <- py_pow2 v0 ;;
      max_range <- py_div v0_sq G ;;
      ret (Return
        {| reachable := false;
           theta_deg := None;
           azimuth_deg := Some (degrees azimuth_rad);
           time_s := None;
           impact_xy := None;
           predicted_target_xy := Some (xt, yt);
           iterations := it;
           low_high_deg := None;
           max_range_m := Some max_range |})
  | Some (low, high) =>
      let theta_rad := if prefer_high_arc then high else low in
      let azimuth_rad := atan2 dy dx in
      cos_theta <- py_cos theta_rad ;;
      let vx := v0 * cos_theta in
      let vx := if abs vx <? 1e-6 then 1e-6 else vx in
      t_new <- py_div Rng vx ;;
      if abs (t_new - t) <? tol_time then
        let t := t_new in
        '(ux, uy) <- unit dx dy ;;
        let impact_x := x0 + ux * Rng + (vox + vwx) * t in
        let impact_y := y0 + uy * Rng + (voy + vwy) * t in
        ret (Return
          {| reachable := true;
             theta_deg := Some (degrees theta_rad);
             azimuth_deg := Some (degrees azimuth_rad);
             time_s := Some t_new;
             impact_xy := Some (impact_x, impact_y);
             predicted_target_xy := Some (xt, yt);
             iterations := it;
             low_high_deg := Some (degrees low, degrees high);
             max_range_m := None |})
      else
        ret (Continue
          {| st_t := t_new;
             st_theta_rad := Some theta_rad;
             st_azimuth_rad := Some azimuth_rad;
             st_locals := Some {| loc_dx := dx; loc_dy := dy; loc_R := Rng;
                                  loc_xt := xt; loc_yt := yt |} |})
  end.

Fixpoint for_loop (n : nat) (it : Z) (st : loop_state) : result step_result :=
  match n with
  | O => ret (Continue st)
  | S n' =>
      r <- iteration it (st_t st) ;;
      match r with
      | Return s => ret (Return s)
      | Continue st' => for_loop n' (it + 1)%Z st'
      end
  end.

Definition after_loop (st : loop_state) : result solution :=
  let t := st_t st in
  '(ux, uy) <- match st_locals st with
               | Some l => unit (loc_dx l) (loc_dy l)
               | None => ret (1, 0)
               end ;;
  let impact_x :=
    match st_locals st with
    | Some l => Some (x0 + ux * loc_R l + (vox + vwx) * t)
    | None => None
    end in
  let impact_y :=
    match st_locals st with
    | Some l => Some (y0 + uy * loc_R l + (voy + vwy) * t)
    | None => None
    end in
  ret {| reachable := true;
         theta_deg := option_map degrees (st_theta_rad st);
         azimuth_deg := option_map degrees (st_azimuth_rad st);
         time_s := Some t;
         impact_xy := match impact_x, impact_y with
                      | Some ix, Some iy => Some (ix, iy)
                      | _, _ => None
                      end;
         predicted_target_xy :=
           match st_locals st with
           | Some l => Some (loc_xt l, loc_yt l)
           | None => None
           end;
         iterations := max_iters;
         low_high_deg := None;
         max_range_m := None |}.

Definition solve_fire : result solution :=
  t <- seed ;;
  r <- for_loop (Z.to_nat max_iters) 1%Z (init_state t) ;;
  match r with
  | Return s => ret s
  | Continue st => after_loop st
  end.

End Libm.

End Binary64.

(** * Properties *)

(** ** The boolean comparisons *)

Lemma Rltb_spec (x y : R) : reflect (x < y) (x <? y).
Proof. unfold Rltb; destruct (Rlt_dec x y); constructor; assumption. Qed.

Lemma Rleb_spec (x y : R) : reflect (x <= y) (x <=? y).
Proof. unfold Rleb; destruct (Rle_dec x y); constructor; assumption. Qed.

Lemma Reqb_spec (x y : R) : reflect (x = y) (x =? y).
Proof. unfold Reqb; destruct (Req_dec_T x y); constructor; assumption. Qed.

Lemma Rltb_true (x y : R) : x < y -> (x <? y) = true.
Proof. destruct (Rltb_spec x y); [reflexivity | contradiction]. Qed.

Lemma Rltb_false (x y : R) : y <= x -> (x <? y) = false.
Proof. destruct (Rltb_spec x y); [lra | reflexivity]. Qed.

Lemma Rgtb_true (x y : R) : y < x -> (x >? y) = true.
Proof. apply Rltb_true. Qed.

Lemma Rgtb_false (x y : R) : x <= y -> (x >? y) = false.
Proof. apply Rltb_false. Qed.

Lemma Rleb_true (x y : R) : x <= y -> (x <=? y) = true.
Proof. destruct (Rleb_spec x y); [reflexivity | contradiction]. Qed.

Lemma Rleb_false (x y : R) : y < x -> (x <=? y) = false.
Proof. destruct (Rleb_spec x y); [lra | reflexivity]. Qed.

Lemma Reqb_true (x y : R) : x = y -> (x =? y) = true.
Proof. destruct (Reqb_spec x y); [reflexivity | contradiction]. Qed.

Lemma Reqb_false (x y : R) : x <> y -> (x =? y) = false.
Proof. destruct (Reqb_spec x y); [contradiction | reflexivity]. Qed.

(** ** The primitives return where their guard holds *)

Lemma py_div_ok (x y : R) : y <> 0 -> py_div x y = Ok (x / y).
Proof. intros Hy; unfold py_div; now rewrite Reqb_false. Qed.

Lemma py_sqrt_ok (x : R) : 0 <= x -> py_sqrt x = Ok (sqrt x).
Proof. intros Hx; unfold py_sqrt; now rewrite Rltb_false. Qed.

Lemma py_asin_ok (x : R) : -1 <= x <= 1 -> py_asin x = Ok (asin x).
Proof.
  intros [Hlo Hhi]; unfold py_asin.
  now rewrite Rltb_false, Rgtb_false.
Qed.

Lemma clamp_id (x lo hi : R) : lo <= x <= hi -> clamp x lo hi = x.
Proof.
  intros [Hlo Hhi]; unfold clamp.
  now rewrite Rltb_false, Rgtb_false.
Qed.

Lemma norm_ok (dx dy : R) : norm dx dy = Ok (sqrt (dx * dx + dy * dy)).
Proof. apply py_sqrt_ok; nra. Qed.

Lemma unit_total (dx dy : R) : exists u, unit dx dy = Ok u.
Proof.
  unfold unit; rewrite norm_ok; cbn [bind ret].
  destruct (Reqb_spec (sqrt (dx * dx + dy * dy)) 0) as [Hz | Hnz].
  - now eexists.
  - rewrite !py_div_ok by assumption; cbn [bind ret]. now eexists.
Qed.

(** ** The arcsine on [0, 1] *)

Lemma asin_nonneg (x : R) : 0 <= x <= 1 -> 0 <= asin x.
Proof.
  intros Hx.
  destruct (Rle_lt_dec 0 (asin x)) as [Hle | Hlt]; [assumption | exfalso].
  pose proof (asin_bound x) as [Hlo _].
  pose proof PI_RGT_0 as Hpi.
  assert (Hsin : sin (asin x) < 0) by (apply sin_lt_0_var; lra).
  rewrite sin_asin in Hsin; lra.
Qed.

(** ** The range-angle inverter *)

Section Inverter.

Variables v0 Rng g : R.
Hypothesis v0_nonzero : v0 <> 0.

Let arg := g * Rng / v0 ^ 2.

Lemma v0_sq_nonzero : v0 ^ 2 <> 0.
Proof. apply pow_nonzero; assumption. Qed.

Lemma angle_for_range_inside :
  -1 <= arg <= 1 ->
  angle_for_range v0 Rng g =
    Ok (Some (0.5 * asin arg, 0.5 * (PI - asin arg))).
Proof.
  intros Harg; unfold angle_for_range.
  rewrite py_div_ok by apply v0_sq_nonzero; cbn [bind ret].
  fold arg.
  rewrite Rltb_false, Rgtb_false by lra; cbn [bind ret].
  rewrite clamp_id by lra.
  rewrite py_asin_ok by lra; reflexivity.
Qed.

Lemma angle_for_range_outside :
  arg < -1 \/ 1 < arg -> angle_for_range v0 Rng g = Ok None.
Proof.
  intros Harg; unfold angle_for_range.
  rewrite py_div_ok by apply v0_sq_nonzero; cbn [bind ret].
  fold arg.
  destruct Harg as [Hlo | Hhi].
  - now rewrite Rltb_true.
  - rewrite (Rgtb_true arg 1) by assumption.
    now rewrite orb_true_r.
Qed.

Lemma angle_for_range_total : exists r, angle_for_range v0 Rng g = Ok r.
Proof.
  destruct (Rlt_le_dec arg (-1)) as [Hlo | Hlo].
  - eexists; apply angle_for_range_outside; now left.
  - destruct (Rlt_le_dec 1 arg) as [Hhi | Hhi].
    + eexists; apply angle_for_range_outside; now right.
    + eexists; apply angle_for_range_inside; lra.
Qed.

End Inverter.

Lemma range_arg_bounds (v0 Rng g : R) :
  0 < v0 -> 0 < g -> 0 <= Rng <= v0 ^ 2 / g ->
  0 <= g * Rng / v0 ^ 2 <= 1.
Proof.
  intros Hv Hg [H0 Hmax].
  assert (Hsq : 0 < v0 ^ 2) by (apply pow_lt; assumption).
  assert (Hle : g * Rng <= v0 ^ 2).
  { apply (Rmult_le_compat_l g) in Hmax; [| lra].
    replace (g * (v0 ^ 2 / g)) with (v0 ^ 2) in Hmax by (field; lra).
    exact Hmax. }
  split.
  - unfold Rdiv; apply Rmult_le_pos; [nra |].
    left; apply Rinv_0_lt_compat; assumption.
  - apply (Rmult_le_reg_r (v0 ^ 2)); [assumption |].
    replace (g * Rng / v0 ^ 2 * v0 ^ 2) with (g * Rng) by (field; lra).
    lra.
Qed.

(** C2.  For [v0 > 0], [g > 0] and [0 <= R <= v0^2/g], [angle_for_range]
    returns a pair [(low, high)] with [0 <= low <= PI/4 <= high <= PI/2]
    and [low + high = PI/2]. *)
Theorem angle_for_range_roots (v0 Rng g : R) :
  0 < v0 -> 0 < g -> 0 <= Rng <= v0 ^ 2 / g ->
  exists low high,
    angle_for_range v0 Rng g = Ok (Some (low, high)) /\
    0 <= low /\ low <= PI / 4 /\ PI / 4 <= high /\ high <= PI / 2 /\
    low + high = PI / 2.
Proof.
  intros Hv Hg HR.
  pose proof (range_arg_bounds v0 Rng g Hv Hg HR) as Harg.
  pose proof (asin_nonneg _ Harg) as Hlo.
  pose proof (asin_bound (g * Rng / v0 ^ 2)) as [_ Hhi].
  exists (0.5 * asin (g * Rng / v0 ^ 2)),
         (0.5 * (PI - asin (g * Rng / v0 ^ 2))).
  split.
  - apply angle_for_range_inside; lra.
  - lra.
Qed.

Lemma angle_for_range_roots_witness :
  exists low high,
    angle_for_range 1 0 1 = Ok (Some (low, high)) /\
    0 <= low /\ low <= PI / 4 /\ PI / 4 <= high /\ high <= PI / 2 /\
    low + high = PI / 2.
Proof. apply angle_for_range_roots; lra. Defined.

(** C3.  For [v0 > 0], [g > 0] and [R > v0^2/g], [angle_for_range]
    returns [None]: the range is out of reach. *)
Theorem angle_for_range_unreachable (v0 Rng g : R) :
  0 < v0 -> 0 < g -> v0 ^ 2 / g < Rng ->
  angle_for_range v0 Rng g = Ok None.
Proof.
  intros Hv Hg HR.
  assert (Hsq : 0 < v0 ^ 2) by (apply pow_lt; assumption).
  apply angle_for_range_outside; [lra | right].
  apply (Rmult_lt_reg_r (v0 ^ 2)); [assumption |].
  replace (g * Rng / v0 ^ 2 * v0 ^ 2) with (g * Rng) by (field; lra).
  apply (Rmult_lt_compat_l g) in HR; [| assumption].
  replace (g * (v0 ^ 2 / g)) with (v0 ^ 2) in HR by (field; lra).
  lra.
Qed.

Lemma angle_for_range_unreachable_witness :
  angle_for_range 1 2 1 = Ok None.
Proof. apply angle_for_range_unreachable; lra. Defined.

(** C8.  At the boundary [R = v0^2/g] the two roots coincide:
    [low = high = PI/4]. *)
Theorem angle_for_range_max_range (v0 g : R) :
  0 < v0 -> 0 < g ->
  angle_for_range v0 (v0 ^ 2 / g) g = Ok (Some (PI / 4, PI / 4)).
Proof.
  intros Hv Hg.
  assert (Hsq : 0 < v0 ^ 2) by (apply pow_lt; assumption).
  assert (Harg : g * (v0 ^ 2 / g) / v0 ^ 2 = 1) by (field; lra).
  rewrite angle_for_range_inside by lra.
  rewrite Harg, asin_1.
  do 3 f_equal; lra.
Qed.

Lemma angle_for_range_max_range_witness :
  angle_for_range 1 (1 ^ 2 / 1) 1 = Ok (Some (PI / 4, PI / 4)).
Proof. apply angle_for_range_max_range; lra. Defined.

(** C10.  At [R = 0] the roots are exactly [(0, PI/2)]: a flat low arc and
    a vertical high arc, and no error. *)
Theorem angle_for_range_zero_range (v0 g : R) :
  0 < v0 -> 0 < g ->
  angle_for_range v0 0 g = Ok (Some (0, PI / 2)).
Proof.
  intros Hv Hg.
  assert (Hsq : 0 < v0 ^ 2) by (apply pow_lt; assumption).
  assert (Harg : g * 0 / v0 ^ 2 = 0) by (field; lra).
  rewrite angle_for_range_inside by lra.
  rewrite Harg, asin_0.
  do 3 f_equal; lra.
Qed.

Lemma angle_for_range_zero_range_witness :
  angle_for_range 1 0 9.81 = Ok (Some (0, PI / 2)).
Proof. apply angle_for_range_zero_range; lra. Defined.

(** ** The intercept solver *)

Lemma G_pos : 0 < G.
Proof. unfold G; lra. Qed.

Lemma py_max_floor (a : R) : 1e-6 <= py_max a 1e-6.
Proof.
  unfold py_max, Rgtb.
  destruct (Rltb_spec a 1e-6); lra.
Qed.

Lemma speed_floor (vx : R) :
  1e-6 <= Rabs (if Rabs vx <? 1e-6 then 1e-6 else vx).
Proof.
  destruct (Rltb_spec (Rabs vx) 1e-6) as [Hlt | Hge].
  - rewrite Rabs_pos_eq; lra.
  - lra.
Qed.

Lemma speed_floor_nonzero (vx : R) :
  (if Rabs vx <? 1e-6 then 1e-6 else vx) <> 0.
Proof.
  intros Hz. pose proof (speed_floor vx) as Hfl.
  rewrite Hz, Rabs_R0 in Hfl; lra.
Qed.

Section SolverFacts.

Variables own_pos target_pos own_vel target_vel wind_vel : R * R.
Variable v0 : R.
Variable prefer_high_arc : bool.
Variable max_iters : Z.
Variable tol_time : R.

Local Notation "'seed_'" := (seed own_pos target_pos v0).
Local Notation "'iteration_'" :=
  (iteration own_pos target_pos own_vel target_vel wind_vel v0
     prefer_high_arc tol_time).
Local Notation "'for_loop_'" :=
  (for_loop own_pos target_pos own_vel target_vel wind_vel v0
     prefer_high_arc tol_time).
Local Notation "'after_loop_'" :=
  (after_loop own_pos own_vel wind_vel max_iters).
Local Notation "'solve_fire_'" :=
  (solve_fire own_pos target_pos own_vel target_vel wind_vel v0
     prefer_high_arc max_iters tol_time).
Local Notation "'reaches_'" :=
  (reaches own_pos target_pos own_vel target_vel wind_vel v0
     prefer_high_arc tol_time).
Local Notation "'displacement_'" :=
  (displacement own_pos target_pos own_vel target_vel wind_vel).
Local Notation "'predicted_target_'" :=
  (predicted_target target_pos target_vel).

(** *** The seed *)

Lemma seed_rejects :
  v0 <= 0 -> seed_ = Raise (ValueError "Muzzle velocity must be positive.").
Proof.
  intros Hv; unfold seed.
  rewrite norm_ok; cbn [bind ret].
  now rewrite Rleb_true.
Qed.

Lemma seed_total : 0 < v0 -> exists t0, seed_ = Ok t0.
Proof.
  intros Hv; unfold seed.
  rewrite norm_ok; cbn [bind ret].
  rewrite Rleb_false by assumption.
  rewrite py_div_ok; cbn [bind ret].
  - rewrite py_div_ok; [now eexists |].
    pose proof (py_max_floor (v0 / Rpower 2 0.5)); lra.
  - unfold Rpower. pose proof (exp_pos (0.5 * ln 2)); lra.
Qed.

Lemma seed_positive_speed (t0 : R) : seed_ = Ok t0 -> 0 < v0.
Proof.
  intros Hs.
  destruct (Rle_lt_dec v0 0) as [Hle | Hlt]; [| assumption].
  rewrite (seed_rejects Hle) in Hs; discriminate.
Qed.

(** *** One iteration *)

(** The iteration that finds the range out of reach. *)
Lemma iteration_out_of_reach (it : Z) (t Rng : R) :
  v0 <> 0 ->
  norm (fst (displacement_ t)) (snd (displacement_ t)) = Ok Rng ->
  angle_for_range v0 Rng G = Ok None ->
  iteration_ it t =
    Ok (Return
      {| reachable := false;
         theta_deg := None;
         azimuth_deg :=
           Some (degrees (atan2 (snd (displacement_ t))
                                (fst (displacement_ t))));
         time_s := None;
         impact_xy := None;
         predicted_target_xy := Some (predicted_target_ t);
         iterations := it;
         low_high_deg := None;
         max_range_m := Some (v0 ^ 2 / G) |}).
Proof.
  intros Hv Hn Hr; unfold iteration, displacement in *.
  cbn [fst snd] in Hn.
  rewrite Hn; cbn [bind ret].
  rewrite Hr; cbn [bind ret].
  rewrite py_div_ok by (pose proof G_pos; lra).
  reflexivity.
Qed.

(** The iteration that finds the roots [(low, high)]: it returns when the
    new time estimate is within [tol_time] of the old one, and otherwise
    hands the new estimate to the next iteration. *)
Lemma iteration_in_reach (it : Z) (t Rng low high : R) :
  norm (fst (displacement_ t)) (snd (displacement_ t)) = Ok Rng ->
  angle_for_range v0 Rng G = Ok (Some (low, high)) ->
  let dx := fst (displacement_ t) in
  let dy := snd (displacement_ t) in
  let theta := if prefer_high_arc then high else low in
  let vx := if Rabs (v0 * cos theta) <? 1e-6 then 1e-6
            else v0 * cos theta in
  let t_new := Rng / vx in
  (Rabs (t_new - t) < tol_time /\
   exists impact,
     iteration_ it t =
       Ok (Return
         {| reachable := true;
            theta_deg := Some (degrees theta);
            azimuth_deg := Some (degrees (atan2 dy dx));
            time_s := Some t_new;
            impact_xy := Some impact;
            predicted_target_xy := Some (predicted_target_ t);
            iterations := it;
            low_high_deg := Some (degrees low, degrees high);
            max_range_m := None |}))
  \/
  (tol_time <= Rabs (t_new - t) /\
   iteration_ it t =
     Ok (Continue
       {| st_t := t_new;
          st_theta_rad := Some theta;
          st_azimuth_rad := Some (atan2 dy dx);
          st_locals :=
            Some {| loc_dx := dx; loc_dy := dy; loc_R := Rng;
                    loc_xt := fst (predicted_target_ t);
                    loc_yt := snd (predicted_target_ t) |} |})).
Proof.
  intros Hn Hr dx dy theta vx t_new.
  unfold iteration.
  unfold displacement in *; cbn [fst snd] in *.
  rewrite Hn; cbn [bind ret].
  rewrite Hr; cbn [bind ret].
  fold theta. fold vx.
  rewrite py_div_ok by apply speed_floor_nonzero.
  cbn [bind ret]. fold t_new.
  destruct (Rltb_spec (Rabs (t_new - t)) tol_time) as [Hconv | Hnot].
  - left; split; [assumption |].
    destruct (unit_total dx dy) as [[ux uy] Hu].
    fold dx dy. rewrite Hu; cbn [bind ret].
    eexists; reflexivity.
  - right; split; [lra | reflexivity].
Qed.

Lemma iteration_total (it : Z) (t : R) :
  v0 <> 0 -> exists r, iteration_ it t = Ok r.
Proof.
  intros Hv.
  pose proof (norm_ok (fst (displacement_ t)) (snd (displacement_ t))) as Hn.
  destruct (angle_for_range_total v0
              (sqrt (fst (displacement_ t) * fst (displacement_ t) +
                     snd (displacement_ t) * snd (displacement_ t))) G Hv)
    as [[[low high] |] Hr].
  - destruct (iteration_in_reach it t _ _ _ Hn Hr) as [[_ [? ->]] | [_ ->]];
      now eexists.
  - rewrite (iteration_out_of_reach it t _ Hv Hn Hr); now eexists.
Qed.

(** What a returning iteration reports. *)
Lemma iteration_return (it : Z) (t : R) (s : solution) :
  iteration_ it t = Ok (Return s) ->
  iterations s = it /\
  (reachable s = true ->
   exists low high,
     low_high_deg s = Some (degrees low, degrees high) /\
     theta_deg s = Some (degrees (if prefer_high_arc then high else low))).
Proof.
  intros Hit.
  pose proof (norm_ok (fst (displacement_ t)) (snd (displacement_ t))) as Hn.
  destruct (Req_dec_T v0 0) as [Hz | Hv].
  { exfalso. unfold iteration in Hit.
    rewrite norm_ok in Hit; cbn [bind ret] in Hit.
    unfold angle_for_range, py_div in Hit.
    rewrite (Reqb_true (v0 ^ 2) 0) in Hit by (rewrite Hz; ring).
    discriminate. }
  destruct (angle_for_range_total v0
              (sqrt (fst (displacement_ t) * fst (displacement_ t) +
                     snd (displacement_ t) * snd (displacement_ t))) G Hv)
    as [[[low high] |] Hr].
  - destruct (iteration_in_reach it t _ _ _ Hn Hr)
      as [[_ [impact Heq]] | [_ Heq]];
      rewrite Heq in Hit; inversion Hit; subst s; cbn.
    split; [reflexivity |]. intros _. now exists low, high.
  - rewrite (iteration_out_of_reach it t _ Hv Hn Hr) in Hit.
    inversion Hit; subst s; cbn.
    split; [reflexivity | discriminate].
Qed.

(** *** The loop *)

Lemma for_loop_total (n : nat) :
  v0 <> 0 -> forall it st, exists r, for_loop_ n it st = Ok r.
Proof.
  intros Hv; induction n as [| n IH]; intros it st; cbn [for_loop].
  - now eexists.
  - destruct (iteration_total it (st_t st) Hv) as [[s | st'] ->];
      cbn [bind ret].
    + now eexists.
    + apply IH.
Qed.

(** A [return] inside the loop comes from one of the [n] iterations that
    start at [it], and reports the counter of that iteration. *)
Lemma for_loop_return (n : nat) :
  forall it st s,
    for_loop_ n it st = Ok (Return s) ->
    (it <= iterations s < it + Z.of_nat n)%Z /\
    (reachable s = true ->
     exists low high,
       low_high_deg s = Some (degrees low, degrees high) /\
       theta_deg s = Some (degrees (if prefer_high_arc then high else low))).
Proof.
  induction n as [| n IH]; intros it st s Hl; cbn [for_loop] in Hl.
  - discriminate.
  - destruct (iteration_ it (st_t st)) as [[s' | st'] | e] eqn:Hit;
      cbn [bind ret] in Hl; try discriminate.
    + inversion Hl; subst s'.
      destruct (iteration_return _ _ _ Hit) as [Hcount Hpair].
      split; [lia | assumption].
    + destruct (IH _ _ _ Hl) as [Hcount Hpair].
      split; [lia | assumption].
Qed.

Lemma reaches_for_loop (t0 : R) (it : Z) (st : loop_state) :
  reaches_ t0 it st ->
  (1 <= it)%Z /\
  forall n,
    for_loop_ (Z.to_nat (it - 1) + n) 1%Z (init_state t0) = for_loop_ n it st.
Proof.
  induction 1 as [| it st st' Hreach [Hpos IH] Hstep].
  - split; [lia | intros n; reflexivity].
  - split; [lia | intros n].
    replace (Z.to_nat (it + 1 - 1) + n)%nat
      with (Z.to_nat (it - 1) + S n)%nat by lia.
    rewrite IH; cbn [for_loop].
    rewrite Hstep; reflexivity.
Qed.

(** *** The code after the loop *)

Lemma after_loop_ok (st : loop_state) :
  exists s,
    after_loop_ st = Ok s /\
    reachable s = true /\
    theta_deg s = option_map degrees (st_theta_rad st) /\
    azimuth_deg s = option_map degrees (st_azimuth_rad st) /\
    time_s s = Some (st_t st) /\
    iterations s = max_iters /\
    low_high_deg s = None.
Proof using Type.
  unfold after_loop.
  destruct (st_locals st) as [l |].
  - destruct (unit_total (loc_dx l) (loc_dy l)) as [[ux uy] ->].
    cbn [bind ret]. eexists; split; [reflexivity |].
    cbn; repeat split; reflexivity.
  - cbn [bind ret]. eexists; split; [reflexivity |].
    cbn; repeat split; reflexivity.
Qed.

(** *** The whole function *)

Lemma solve_fire_unfold (t0 : R) :
  seed_ = Ok t0 ->
  solve_fire_ =
    match for_loop_ (Z.to_nat max_iters) 1%Z (init_state t0) with
    | Ok (Return s) => Ok s
    | Ok (Continue st) => after_loop_ st
    | Raise e => Raise e
    end.
Proof.
  intros Hs; unfold solve_fire; rewrite Hs; cbn [bind ret].
  destruct (for_loop_ _ _ _) as [[s | st] | e]; reflexivity.
Qed.

(** Every result carries a count no larger than the cap; with a cap of at
    least one the count is at least one. *)
Lemma solve_fire_count :
  0 < v0 ->
  exists s,
    solve_fire_ = Ok s /\
    (iterations s <= max_iters)%Z /\
    ((1 <= max_iters)%Z -> (1 <= iterations s)%Z) /\
    (forall t0 st,
       seed_ = Ok t0 ->
       for_loop_ (Z.to_nat max_iters) 1%Z (init_state t0) = Ok (Continue st) ->
       iterations s = max_iters).
Proof.
  intros Hv.
  destruct (seed_total Hv) as [t0 Hs].
  rewrite (solve_fire_unfold t0 Hs).
  assert (Hnz : v0 <> 0) by lra.
  destruct (for_loop_total (Z.to_nat max_iters) Hnz 1%Z (init_state t0))
    as [[s | st] Hl]; rewrite Hl.
  - exists s. destruct (for_loop_return _ _ _ _ Hl) as [Hcount _].
    repeat split; try lia.
    intros t1 st1 Hs1 Hl1.
    rewrite Hs in Hs1; inversion Hs1; subst t1.
    rewrite Hl in Hl1; discriminate.
  - destruct (after_loop_ok st) as [s (Ha & _ & _ & _ & _ & Hcount & _)].
    exists s. repeat split; try assumption; lia.
Qed.

(** C4.  When the iteration reached with counter [k] finds the compensated
    range out of reach, [solve_fire] returns there: [reachable] is false,
    elevation, time of flight and impact point are absent, the azimuth is
    that of the compensated displacement of this iteration, and the result
    carries the ideal maximum range [v0^2/G], the predicted position of the
    target at the current time estimate and the counter [k]. *)
Theorem solve_fire_out_of_reach (t0 : R) (k : Z) (st : loop_state) (Rng : R) :
  let d :=
    displacement own_pos target_pos own_vel target_vel wind_vel (st_t st) in
  seed own_pos target_pos v0 = Ok t0 ->
  reaches own_pos target_pos own_vel target_vel wind_vel v0
    prefer_high_arc tol_time t0 k st ->
  (k <= max_iters)%Z ->
  norm (fst d) (snd d) = Ok Rng ->
  angle_for_range v0 Rng G = Ok None ->
  solve_fire own_pos target_pos own_vel target_vel wind_vel v0
    prefer_high_arc max_iters tol_time =
    Ok {| reachable := false;
          theta_deg := None;
          azimuth_deg := Some (degrees (atan2 (snd d) (fst d)));
          time_s := None;
          impact_xy := None;
          predicted_target_xy :=
            Some (predicted_target target_pos target_vel (st_t st));
          iterations := k;
          low_high_deg := None;
          max_range_m := Some (v0 ^ 2 / G) |}.
Proof.
  intros d Hs Hreach Hk Hn Hr; subst d.
  pose proof (seed_positive_speed t0 Hs) as Hv.
  destruct (reaches_for_loop t0 k st Hreach) as [Hpos Hloop].
  rewrite (solve_fire_unfold t0 Hs).
  replace (Z.to_nat max_iters)
    with (Z.to_nat (k - 1) + S (Z.to_nat (max_iters - k)))%nat by lia.
  rewrite Hloop; cbn [for_loop].
  rewrite (iteration_out_of_reach k (st_t st) Rng) by (assumption || lra).
  reflexivity.
Qed.

(** C5, as the code has it.  A result marked reachable carries the low/high
    pair exactly when it was returned from inside the loop, by the
    iteration whose convergence test succeeded; the result built after an
    exhausted loop is marked reachable and its [low_high_deg] is [None]. *)
Theorem solve_fire_low_high (t0 : R) (s : solution) :
  seed own_pos target_pos v0 = Ok t0 ->
  solve_fire own_pos target_pos own_vel target_vel wind_vel v0
    prefer_high_arc max_iters tol_time = Ok s ->
  reachable s = true ->
  match for_loop own_pos target_pos own_vel target_vel wind_vel v0
          prefer_high_arc tol_time (Z.to_nat max_iters) 1%Z (init_state t0)
  with
  | Ok (Return _) =>
      exists low high,
        low_high_deg s = Some (degrees low, degrees high) /\
        theta_deg s = Some (degrees (if prefer_high_arc then high else low))
  | Ok (Continue _) => low_high_deg s = None
  | Raise _ => False
  end.
Proof.
  intros Hs Hsol Hreach.
  rewrite (solve_fire_unfold t0 Hs) in Hsol.
  destruct (for_loop_ _ _ _) as [[s' | st] | e] eqn:Hl.
  - inversion Hsol; subst s'.
    destruct (for_loop_return _ _ _ _ Hl) as [_ Hpair]; auto.
  - destruct (after_loop_ok st) as [s' (Ha & _ & _ & _ & _ & _ & Hnone)].
    rewrite Ha in Hsol; inversion Hsol; subst s'; assumption.
  - discriminate.
Qed.

(** C6.  With [v0 <= 0] the function raises [ValueError] at the check that
    precedes the first time estimate and the loop: no iteration runs and no
    solution, partial or not, is returned. *)
Theorem solve_fire_rejects_nonpositive_speed :
  v0 <= 0 ->
  seed own_pos target_pos v0 =
    Raise (ValueError "Muzzle velocity must be positive.") /\
  solve_fire own_pos target_pos own_vel target_vel wind_vel v0
    prefer_high_arc max_iters tol_time =
    Raise (ValueError "Muzzle velocity must be positive.").
Proof.
  intros Hv; split.
  - apply seed_rejects; assumption.
  - unfold solve_fire; rewrite (seed_rejects Hv); reflexivity.
Qed.

(** What the guards of the source achieve, over the reals: with [v0 > 0]
    the divisor of the seed is at least [1e-6], the horizontal speed is at
    least [1e-6] in magnitude after its floor, [unit] returns for every
    vector, the zero vector included, and a result is returned whose count
    is at most [max_iters].  The division of [angle_for_range] by [v0 ** 2]
    has no guard; over the reals a square of a non-zero number is not zero,
    on binary64 it can be. *)
Theorem solve_fire_total :
  0 < v0 ->
  (forall vx_guess, 1e-6 <= py_max vx_guess 1e-6) /\
  (forall vx, 1e-6 <= Rabs (if Rabs vx <? 1e-6 then 1e-6 else vx)) /\
  (forall dx dy, exists u, unit dx dy = Ok u) /\
  exists s,
    solve_fire own_pos target_pos own_vel target_vel wind_vel v0
      prefer_high_arc max_iters tol_time = Ok s /\
    (iterations s <= max_iters)%Z.
Proof.
  intros Hv.
  split; [exact py_max_floor |].
  split; [exact speed_floor |].
  split; [exact unit_total |].
  destruct (solve_fire_count Hv) as [s (Hs & Hle & _)].
  now exists s.
Qed.

(** C9.  With [v0 > 0] and [max_iters >= 1] the count of the result lies
    between 1 and [max_iters], and it is [max_iters] when the loop ran out
    without returning. *)
Theorem solve_fire_iteration_count :
  0 < v0 ->
  (1 <= max_iters)%Z ->
  exists s,
    solve_fire own_pos target_pos own_vel target_vel wind_vel v0
      prefer_high_arc max_iters tol_time = Ok s /\
    (1 <= iterations s <= max_iters)%Z /\
    (forall t0 st,
       seed own_pos target_pos v0 = Ok t0 ->
       for_loop own_pos target_pos own_vel target_vel wind_vel v0
         prefer_high_arc tol_time (Z.to_nat max_iters) 1%Z (init_state t0)
         = Ok (Continue st) ->
       iterations s = max_iters).
Proof.
  intros Hv Hcap.
  destruct (solve_fire_count Hv) as [s (Hs & Hle & Hge & Hexh)].
  exists s; repeat split; auto.
Qed.

End SolverFacts.

(** ** Everything at rest

    Own ship, target and wind have velocity [(0, 0)]: every iteration sees
    the displacement and the range of the start, hence the same roots and
    the same new time estimate. *)

Section AtRest.

Variables own_pos target_pos : R * R.
Variable v0 : R.
Variable prefer_high_arc : bool.
Variable max_iters : Z.
Variable tol_time : R.
Variables R0 low high : R.

Let dx0 := fst target_pos - fst own_pos.
Let dy0 := snd target_pos - snd own_pos.
Let theta := if prefer_high_arc then high else low.
Let vx := if Rabs (v0 * cos theta) <? 1e-6 then 1e-6 else v0 * cos theta.
Let t_star := R0 / vx.

Hypothesis range_at_start : norm dx0 dy0 = Ok R0.
Hypothesis roots_at_start : angle_for_range v0 R0 G = Ok (Some (low, high)).

Local Notation "'still'" := (0, 0) (only parsing).
Local Notation "'iteration_'" :=
  (iteration own_pos target_pos still still still v0 prefer_high_arc tol_time).
Local Notation "'for_loop_'" :=
  (for_loop own_pos target_pos still still still v0 prefer_high_arc tol_time).
Local Notation "'solve_fire_'" :=
  (solve_fire own_pos target_pos still still still v0 prefer_high_arc
     max_iters tol_time).

Lemma at_rest_displacement (t : R) :
  displacement own_pos target_pos still still still t = (dx0, dy0).
Proof. unfold displacement, dx0, dy0; cbn [fst snd]; f_equal; ring. Qed.

Local Notation "'warm_'" := (warm t_star theta (atan2 dy0 dx0)).
Local Notation "'aimed_'" := (aimed theta (atan2 dy0 dx0) low high).

Lemma at_rest_iteration (it : Z) (t : R) :
  (Rabs (t_star - t) < tol_time /\
   exists s, iteration_ it t = Ok (Return s) /\ aimed_ s /\ iterations s = it)
  \/
  (tol_time <= Rabs (t_star - t) /\
   exists st, iteration_ it t = Ok (Continue st) /\ warm_ st).
Proof.
  pose proof (iteration_in_reach own_pos target_pos still still still v0
                prefer_high_arc tol_time it t R0 low high) as Hstep.
  rewrite at_rest_displacement in Hstep; cbn [fst snd] in Hstep.
  specialize (Hstep range_at_start roots_at_start); cbv zeta in Hstep.
  fold theta in Hstep; fold vx in Hstep; fold t_star in Hstep.
  destruct Hstep as [[Hconv [impact Heq]] | [Hnot Heq]].
  - left; split; [assumption |].
    eexists; split; [exact Heq |]. unfold aimed; cbn; tauto.
  - right; split; [assumption |].
    eexists; split; [exact Heq |]. unfold warm; cbn; tauto.
Qed.

(** From a warm state the loop returns an aimed result or runs out warm. *)
Lemma at_rest_loop (n : nat) :
  forall it st,
    warm_ st ->
    (exists s, for_loop_ n it st = Ok (Return s) /\ aimed_ s) \/
    (exists st', for_loop_ n it st = Ok (Continue st') /\ warm_ st').
Proof.
  induction n as [| n IH]; intros it st Hwarm; cbn [for_loop].
  - right; now exists st.
  - destruct (at_rest_iteration it (st_t st))
      as [[_ [s (-> & Haim & _)]] | [_ [st' (-> & Hwarm')]]];
      cbn [bind ret].
    + left; now exists s.
    + apply IH; assumption.
Qed.

(** With a positive tolerance a warm state converges at once: the new
    estimate is the old one. *)
Lemma at_rest_converges (n : nat) (it : Z) (st : loop_state) :
  0 < tol_time ->
  warm_ st ->
  exists s,
    for_loop_ (S n) it st = Ok (Return s) /\ aimed_ s /\ iterations s = it.
Proof.
  intros Htol (Ht & _); cbn [for_loop].
  destruct (at_rest_iteration it (st_t st))
    as [[_ [s (-> & Haim & Hcount)]] | [Hnot _]].
  - cbn [bind ret]; now exists s.
  - exfalso. rewrite Ht in Hnot.
    replace (t_star - t_star) with 0 in Hnot by ring.
    rewrite Rabs_R0 in Hnot; lra.
Qed.

(** With a tolerance that is not positive no iteration returns. *)
Lemma at_rest_runs_out (n : nat) :
  tol_time <= 0 ->
  forall it st, exists st', for_loop_ n it st = Ok (Continue st').
Proof.
  intros Htol; induction n as [| n IH]; intros it st; cbn [for_loop].
  - now exists st.
  - destruct (at_rest_iteration it (st_t st))
      as [[Hconv _] | [_ [st' (-> & _)]]].
    + exfalso. pose proof (Rabs_pos (t_star - st_t st)); lra.
    + cbn [bind ret]; apply IH.
Qed.

(** The first iteration starts from the cold state of the seed. *)
Lemma at_rest_first (n : nat) (t0 : R) :
  (exists s,
     for_loop_ (S n) 1%Z (init_state t0) = Ok (Return s) /\ aimed_ s /\
     (0 < tol_time -> (1 <= n)%nat -> (iterations s <= 2)%Z)) \/
  (exists st,
     for_loop_ (S n) 1%Z (init_state t0) = Ok (Continue st) /\ warm_ st /\
     (0 < tol_time -> n = 0%nat)).
Proof.
  cbn [for_loop].
  destruct (at_rest_iteration 1 (st_t (init_state t0)))
    as [[_ [s (-> & Haim & Hcount)]] | [_ [st' (-> & Hwarm')]]];
    cbn [bind ret].
  - left; exists s; repeat split; try apply Haim. intros; lia.
  - destruct (Rlt_le_dec 0 tol_time) as [Htol | Htol].
    + destruct n as [| n].
      * right; exists st'; cbn [for_loop]; auto.
      * destruct (at_rest_converges n (1 + 1) st' Htol Hwarm')
          as [s (Hl & Haim & Hcount)].
        left; exists s; repeat split; try apply Haim; try assumption.
        intros; lia.
    + destruct (at_rest_loop n (1 + 1) st' Hwarm')
        as [[s (Hl & Haim)] | [st'' (Hl & Hwarm'')]].
      * left; exists s; repeat split; try apply Haim; try assumption.
        intros; lra.
      * right; exists st''; repeat split; try apply Hwarm''; try assumption.
        intros; lra.
Qed.

Lemma at_rest_solve :
  0 < v0 ->
  (1 <= max_iters)%Z ->
  exists s,
    solve_fire_ = Ok s /\
    reachable s = true /\
    theta_deg s = Some (degrees theta) /\
    azimuth_deg s = Some (degrees (atan2 dy0 dx0)) /\
    (0 < tol_time -> (2 <= max_iters)%Z ->
     (iterations s <= 2)%Z /\
     low_high_deg s = Some (degrees low, degrees high)) /\
    (tol_time <= 0 ->
     low_high_deg s = None /\
     exists t0 st,
       seed own_pos target_pos v0 = Ok t0 /\
       for_loop_ (Z.to_nat max_iters) 1%Z (init_state t0) = Ok (Continue st)).
Proof.
  intros Hv Hcap.
  destruct (seed_total own_pos target_pos v0 Hv) as [t0 Hs].
  rewrite (solve_fire_unfold _ _ _ _ _ _ _ _ _ t0 Hs).
  assert (Hn : Z.to_nat max_iters = S (Z.to_nat (max_iters - 1))) by lia.
  rewrite Hn.
  destruct (at_rest_first (Z.to_nat (max_iters - 1)) t0)
    as [[s (Hl & Haim & Hcount)] | [st (Hl & Hwarm & Hlast)]].
  - rewrite Hl. exists s.
    destruct Haim as (Hr & Hth & Haz & Hlh).
    split; [reflexivity |].
    split; [assumption |].
    split; [assumption |].
    split; [assumption |].
    split.
    + intros Htol Htwo; split; [| assumption].
      apply Hcount; [assumption | lia].
    + intros Htol; exfalso.
      destruct (at_rest_runs_out (S (Z.to_nat (max_iters - 1))) Htol
                  1%Z (init_state t0)) as [st' Hl'].
      rewrite Hl in Hl'; discriminate.
  - rewrite Hl.
    destruct (after_loop_ok own_pos still still max_iters st)
      as [s (Ha & Hr & Hth & Haz & _ & _ & Hnone)].
    destruct Hwarm as (_ & Hth' & Haz').
    rewrite Hth' in Hth; rewrite Haz' in Haz.
    exists s.
    split; [assumption |].
    split; [assumption |].
    split; [assumption |].
    split; [assumption |].
    split.
    + intros Htol Htwo. specialize (Hlast Htol); lia.
    + intros _; split; [assumption |].
      exists t0, st; split; assumption.
Qed.

End AtRest.

(** C1.  Own ship, target and wind at rest, [v0 > 0], low arc, a cap of at
    least two iterations and a straight-line range [R0] with
    [0 < R0 <= v0^2/G]: [solve_fire] returns a reachable solution whose
    azimuth is that of the line from own ship to target and whose elevation
    is the low root of [angle_for_range v0 R0 G]; with a positive tolerance
    it has converged by the second iteration. *)
Theorem solve_fire_at_rest
    (own_pos target_pos : R * R) (v0 : R) (max_iters : Z) (tol_time R0 : R) :
  0 < v0 ->
  norm (fst target_pos - fst own_pos) (snd target_pos - snd own_pos) = Ok R0 ->
  0 < R0 <= v0 ^ 2 / G ->
  (2 <= max_iters)%Z ->
  exists low high s,
    angle_for_range v0 R0 G = Ok (Some (low, high)) /\
    solve_fire own_pos target_pos (0, 0) (0, 0) (0, 0) v0 false
      max_iters tol_time = Ok s /\
    reachable s = true /\
    azimuth_deg s =
      Some (degrees (atan2 (snd target_pos - snd own_pos)
                           (fst target_pos - fst own_pos))) /\
    theta_deg s = Some (degrees low) /\
    (0 < tol_time ->
     (iterations s <= 2)%Z /\
     low_high_deg s = Some (degrees low, degrees high)).
Proof.
  intros Hv Hn HR Hcap.
  assert (Harg : 0 <= G * R0 / v0 ^ 2 <= 1).
  { apply range_arg_bounds; [assumption | apply G_pos | lra]. }
  assert (Hroots : angle_for_range v0 R0 G =
            Ok (Some (0.5 * asin (G * R0 / v0 ^ 2),
                      0.5 * (PI - asin (G * R0 / v0 ^ 2))))).
  { apply angle_for_range_inside; lra. }
  destruct (at_rest_solve own_pos target_pos v0 false max_iters tol_time
              R0 _ _ Hn Hroots Hv ltac:(lia))
    as [s (Hs & Hreach & Hth & Haz & Hconv & _)].
  eexists _, _, s.
  split; [exact Hroots |].
  split; [exact Hs |].
  split; [exact Hreach |].
  split; [exact Haz |].
  split; [exact Hth |].
  intros Htol; apply Hconv; assumption.
Qed.

(** ** The statements at concrete inputs *)

Lemma norm_unit_east : norm (1 - 0) (0 - 0) = Ok 1.
Proof.
  rewrite norm_ok; f_equal.
  replace ((1 - 0) * (1 - 0) + (0 - 0) * (0 - 0)) with 1 by ring.
  apply sqrt_1.
Qed.

Lemma roots_unit_east :
  angle_for_range 4 1 G =
    Ok (Some (0.5 * asin (G * 1 / 4 ^ 2), 0.5 * (PI - asin (G * 1 / 4 ^ 2)))).
Proof. apply angle_for_range_inside; unfold G; lra. Qed.

Lemma solve_fire_at_rest_witness :
  exists low high s,
    angle_for_range 4 1 G = Ok (Some (low, high)) /\
    solve_fire (0, 0) (1, 0) (0, 0) (0, 0) (0, 0) 4 false 12 1e-3 = Ok s /\
    reachable s = true /\
    azimuth_deg s = Some (degrees (atan2 (0 - 0) (1 - 0))) /\
    theta_deg s = Some (degrees low) /\
    (0 < 1e-3 ->
     (iterations s <= 2)%Z /\
     low_high_deg s = Some (degrees low, degrees high)).
Proof.
  apply (solve_fire_at_rest (0, 0) (1, 0) 4 12 1e-3 1).
  - lra.
  - exact norm_unit_east.
  - unfold G; lra.
  - lia.
Defined.

Lemma solve_fire_out_of_reach_witness :
  exists t0,
    seed (0, 0) (100, 0) 1 = Ok t0 /\
    solve_fire (0, 0) (100, 0) (0, 0) (0, 0) (0, 0) 1 false 12 1e-3 =
      Ok {| reachable := false;
            theta_deg := None;
            azimuth_deg :=
              Some (degrees
                (atan2
                   (snd (displacement (0, 0) (100, 0) (0, 0) (0, 0) (0, 0)
                           t0))
                   (fst (displacement (0, 0) (100, 0) (0, 0) (0, 0) (0, 0)
                           t0))));
            time_s := None;
            impact_xy := None;
            predicted_target_xy :=
              Some (predicted_target (100, 0) (0, 0) t0);
            iterations := 1;
            low_high_deg := None;
            max_range_m := Some (1 ^ 2 / G) |}.
Proof.
  destruct (seed_total (0, 0) (100, 0) 1 ltac:(lra)) as [t0 Hs].
  exists t0; split; [exact Hs |].
  apply (solve_fire_out_of_reach (0, 0) (100, 0) (0, 0) (0, 0) (0, 0) 1 false
           12 1e-3 t0 1 (init_state t0) 100 Hs).
  - apply reaches_first.
  - lia.
  - rewrite at_rest_displacement; cbn [fst snd st_t init_state].
    rewrite norm_ok; f_equal.
    replace ((100 - 0) * (100 - 0) + (0 - 0) * (0 - 0)) with (100 * 100)
      by ring.
    apply sqrt_square; lra.
  - apply angle_for_range_outside; [lra |].
    right; unfold G; lra.
Defined.

(** C5 as the specification states it fails: at rest, with the tolerance 0
    that no estimate can meet, the twelve iterations run out and the result
    is marked reachable, has an elevation, and has no low/high pair. *)
Lemma solve_fire_low_high_missing :
  exists s,
    solve_fire (0, 0) (1, 0) (0, 0) (0, 0) (0, 0) 4 false 12 0 = Ok s /\
    reachable s = true /\
    theta_deg s = Some (degrees (0.5 * asin (G * 1 / 4 ^ 2))) /\
    low_high_deg s = None.
Proof.
  destruct (at_rest_solve (0, 0) (1, 0) 4 false 12 0 1 _ _
              norm_unit_east roots_unit_east ltac:(lra) ltac:(lia))
    as [s (Hs & Hreach & Hth & _ & _ & Hout)].
  destruct (Hout ltac:(lra)) as [Hnone _].
  exists s; repeat split; assumption.
Qed.

Lemma solve_fire_low_high_witness :
  exists t0 s,
    seed (0, 0) (1, 0) 4 = Ok t0 /\
    solve_fire (0, 0) (1, 0) (0, 0) (0, 0) (0, 0) 4 false 12 1e-3 = Ok s /\
    reachable s = true /\
    match for_loop (0, 0) (1, 0) (0, 0) (0, 0) (0, 0) 4 false 1e-3
            (Z.to_nat 12) 1%Z (init_state t0) with
    | Ok (Return _) =>
        exists low high,
          low_high_deg s = Some (degrees low, degrees high) /\
          theta_deg s = Some (degrees (if false then high else low))
    | Ok (Continue _) => low_high_deg s = None
    | Raise _ => False
    end.
Proof.
  destruct (seed_total (0, 0) (1, 0) 4 ltac:(lra)) as [t0 Hs].
  destruct (at_rest_solve (0, 0) (1, 0) 4 false 12 1e-3 1 _ _
              norm_unit_east roots_unit_east ltac:(lra) ltac:(lia))
    as [s (Hsol & Hreach & _)].
  exists t0, s.
  split; [exact Hs |].
  split; [exact Hsol |].
  split; [exact Hreach |].
  exact (solve_fire_low_high (0, 0) (1, 0) (0, 0) (0, 0) (0, 0) 4 false 12
           1e-3 t0 s Hs Hsol Hreach).
Defined.

Lemma solve_fire_rejects_nonpositive_speed_witness :
  seed (0, 0) (5000, 0) 0 =
    Raise (ValueError "Muzzle velocity must be positive.") /\
  solve_fire (0, 0) (5000, 0) (0, 0) (0, 0) (0, 0) 0 false 12 1e-3 =
    Raise (ValueError "Muzzle velocity must be positive.").
Proof.
  apply (solve_fire_rejects_nonpositive_speed
           (0, 0) (5000, 0) (0, 0) (0, 0) (0, 0) 0 false 12 1e-3).
  lra.
Defined.

Lemma solve_fire_total_witness :
  (forall vx_guess, 1e-6 <= py_max vx_guess 1e-6) /\
  (forall vx, 1e-6 <= Rabs (if Rabs vx <? 1e-6 then 1e-6 else vx)) /\
  (forall dx dy, exists u, unit dx dy = Ok u) /\
  exists s,
    solve_fire (0, 0) (5000, 0) (3, 4) (-5, 2) (1, 1) 700 true 12 1e-3
      = Ok s /\
    (iterations s <= 12)%Z.
Proof.
  apply (solve_fire_total (0, 0) (5000, 0) (3, 4) (-5, 2) (1, 1) 700 true 12
           1e-3).
  lra.
Defined.

Lemma solve_fire_iteration_count_witness :
  exists s,
    solve_fire (0, 0) (5000, 0) (3, 4) (-5, 2) (1, 1) 700 false 12 1e-3
      = Ok s /\
    (1 <= iterations s <= 12)%Z /\
    (forall t0 st,
       seed (0, 0) (5000, 0) 700 = Ok t0 ->
       for_loop (0, 0) (5000, 0) (3, 4) (-5, 2) (1, 1) 700 false 1e-3
         (Z.to_nat 12) 1%Z (init_state t0) = Ok (Continue st) ->
       iterations s = 12%Z).
Proof.
  apply (solve_fire_iteration_count
           (0, 0) (5000, 0) (3, 4) (-5, 2) (1, 1) 700 false 12 1e-3).
  - lra.
  - lia.
Defined.

(** The loop does run out on some inputs: at rest with the tolerance 0 the
    count of the result is the cap. *)
Lemma solve_fire_runs_out_at_cap :
  exists s,
    solve_fire (0, 0) (1, 0) (0, 0) (0, 0) (0, 0) 4 false 12 0 = Ok s /\
    iterations s = 12%Z.
Proof.
  destruct (at_rest_solve (0, 0) (1, 0) 4 false 12 0 1 _ _
              norm_unit_east roots_unit_east ltac:(lra) ltac:(lia))
    as [s (Hs & _ & _ & _ & _ & Hout)].
  destruct (Hout ltac:(lra)) as [_ (t0 & st & Hseed & Hloop)].
  destruct (solve_fire_count (0, 0) (1, 0) (0, 0) (0, 0) (0, 0) 4 false 12 0
              ltac:(lra)) as [s' (Hs' & _ & _ & Hcap)].
  rewrite Hs in Hs'; inversion Hs'; subst s'.
  exists s; split; [exact Hs |].
  exact (Hcap t0 st Hseed Hloop).
Qed.

(** * Further properties of the helpers *)

(** ** [clamp] *)

(** With [lo <= hi] the value of [clamp] lies in [[lo, hi]], a value
    already there is returned as it is, and clamping twice is clamping
    once. *)
Theorem clamp_bounds (x lo hi : R) :
  lo <= hi ->
  lo <= clamp x lo hi <= hi /\
  (lo <= x <= hi -> clamp x lo hi = x) /\
  clamp (clamp x lo hi) lo hi = clamp x lo hi.
Proof.
  intros Hlh.
  assert (Hin : lo <= clamp x lo hi <= hi).
  { unfold clamp, Rgtb.
    destruct (Rltb_spec x lo); [lra |].
    destruct (Rltb_spec hi x); lra. }
  split; [exact Hin |].
  split; [apply clamp_id |].
  apply clamp_id; exact Hin.
Qed.

Lemma clamp_bounds_witness :
  -1 <= clamp 3 (-1) 1 <= 1 /\
  (-1 <= 3 <= 1 -> clamp 3 (-1) 1 = 3) /\
  clamp (clamp 3 (-1) 1) (-1) 1 = clamp 3 (-1) 1.
Proof. apply clamp_bounds; lra. Defined.

(** [clamp] is monotone in its first argument. *)
Theorem clamp_monotone (x y lo hi : R) :
  lo <= hi -> x <= y -> clamp x lo hi <= clamp y lo hi.
Proof.
  intros Hlh Hxy; unfold clamp, Rgtb.
  destruct (Rltb_spec x lo), (Rltb_spec y lo),
           (Rltb_spec hi x), (Rltb_spec hi y); lra.
Qed.

Lemma clamp_monotone_witness : clamp (-5) (-1) 1 <= clamp 0.5 (-1) 1.
Proof. apply clamp_monotone; lra. Defined.

(** ** [norm] and [unit] *)

(** [norm] never raises: it returns the non-negative [n] with
    [n * n = dx * dx + dy * dy], which is 0 only for the zero vector. *)
Theorem norm_euclidean (dx dy : R) :
  exists n,
    norm dx dy = Ok n /\
    0 <= n /\
    n * n = dx * dx + dy * dy /\
    (n = 0 <-> dx = 0 /\ dy = 0).
Proof.
  exists (sqrt (dx * dx + dy * dy)).
  assert (Hsq : 0 <= dx * dx + dy * dy) by nra.
  split; [apply norm_ok |].
  split; [apply sqrt_pos |].
  split; [apply sqrt_sqrt; exact Hsq |].
  split.
  - intros Hz. apply sqrt_eq_0 in Hz; [| exact Hsq]. nra.
  - intros [-> ->].
    replace (0 * 0 + 0 * 0) with 0 by ring. apply sqrt_0.
Qed.

(** [unit] never divides by zero: the zero vector gives [(0, 0)]. *)
Lemma unit_zero : unit 0 0 = Ok (0, 0).
Proof.
  unfold unit; rewrite norm_ok; cbn [bind ret].
  replace (0 * 0 + 0 * 0) with 0 by ring.
  rewrite sqrt_0, Reqb_true by reflexivity; reflexivity.
Qed.

Lemma unit_nonzero (dx dy : R) :
  dx <> 0 \/ dy <> 0 ->
  unit dx dy =
    Ok (dx / sqrt (dx * dx + dy * dy), dy / sqrt (dx * dx + dy * dy)).
Proof.
  intros Hnz.
  assert (Hsq : 0 < dx * dx + dy * dy) by (destruct Hnz; nra).
  pose proof (sqrt_lt_R0 _ Hsq) as Hn.
  unfold unit; rewrite norm_ok; cbn [bind ret].
  rewrite Reqb_false by lra.
  rewrite !py_div_ok by lra; reflexivity.
Qed.

(** Whatever the vector, the result of [unit] scaled by the norm is the
    vector again; this is what the impact point of [solve_fire] relies
    on. *)
Lemma unit_rescale (dx dy n ux uy : R) :
  norm dx dy = Ok n -> unit dx dy = Ok (ux, uy) ->
  ux * n = dx /\ uy * n = dy.
Proof.
  intros Hn Hu; rewrite norm_ok in Hn; inversion Hn as [Hn']; clear Hn.
  destruct (Req_dec_T dx 0) as [Hx | Hx].
  - destruct (Req_dec_T dy 0) as [Hy | Hy].
    + rewrite Hx, Hy in Hu |- *.
      rewrite unit_zero in Hu; inversion Hu.
      split; ring.
    + rewrite unit_nonzero in Hu by (right; exact Hy).
      inversion Hu.
      assert (Hsq : 0 < dx * dx + dy * dy) by nra.
      pose proof (sqrt_lt_R0 _ Hsq).
      split; field; lra.
  - rewrite unit_nonzero in Hu by (left; exact Hx).
    inversion Hu.
    assert (Hsq : 0 < dx * dx + dy * dy) by nra.
    pose proof (sqrt_lt_R0 _ Hsq).
    split; field; lra.
Qed.

(** For a vector that is not zero [unit] returns the vector of length 1 in
    the same direction. *)
Theorem unit_direction (dx dy : R) :
  dx <> 0 \/ dy <> 0 ->
  exists n ux uy,
    norm dx dy = Ok n /\
    unit dx dy = Ok (ux, uy) /\
    0 < n /\
    ux * ux + uy * uy = 1 /\
    ux * n = dx /\ uy * n = dy.
Proof.
  intros Hnz.
  assert (Hsq : 0 < dx * dx + dy * dy) by (destruct Hnz; nra).
  pose proof (sqrt_lt_R0 _ Hsq) as Hn.
  pose proof (sqrt_sqrt (dx * dx + dy * dy) ltac:(lra)) as Hnn.
  exists (sqrt (dx * dx + dy * dy)), (dx / sqrt (dx * dx + dy * dy)),
         (dy / sqrt (dx * dx + dy * dy)).
  split; [apply norm_ok |].
  split; [apply unit_nonzero; exact Hnz |].
  split; [exact Hn |].
  set (n := sqrt (dx * dx + dy * dy)) in *.
  split.
  - replace (dx / n * (dx / n) + dy / n * (dy / n))
      with ((dx * dx + dy * dy) / (n * n)) by (field; lra).
    rewrite Hnn; field; lra.
  - split; field; lra.
Qed.

Lemma unit_direction_witness :
  exists n ux uy,
    norm 3 4 = Ok n /\
    unit 3 4 = Ok (ux, uy) /\
    0 < n /\
    ux * ux + uy * uy = 1 /\
    ux * n = 3 /\ uy * n = 4.
Proof. apply unit_direction; left; lra. Defined.

(** ** [angle_for_range] beyond the claims *)

Lemma asin_monotone (a b : R) : -1 <= a -> a <= b -> b <= 1 -> asin a <= asin b.
Proof.
  intros Ha Hab Hb.
  destruct (Rle_lt_dec (asin a) (asin b)) as [Hle | Hlt]; [assumption |].
  exfalso.
  pose proof (asin_bound a) as [Ha1 Ha2].
  pose proof (asin_bound b) as [Hb1 Hb2].
  pose proof (sin_increasing_1 (asin b) (asin a) Hb1 Hb2 Ha1 Ha2 Hlt) as Hs.
  rewrite !sin_asin in Hs; lra.
Qed.

(** A muzzle speed of 0 divides by zero. *)
Lemma angle_for_range_zero_speed (Rng g : R) :
  angle_for_range 0 Rng g = Raise (ZeroDivisionError "float division by zero").
Proof.
  unfold angle_for_range, py_div.
  rewrite Reqb_true by ring. reflexivity.
Qed.

(** What a returned pair is. *)
Lemma angle_for_range_some_inv (v0 Rng g low high : R) :
  angle_for_range v0 Rng g = Ok (Some (low, high)) ->
  v0 <> 0 /\
  -1 <= g * Rng / v0 ^ 2 <= 1 /\
  low = 0.5 * asin (g * Rng / v0 ^ 2) /\
  high = 0.5 * (PI - asin (g * Rng / v0 ^ 2)).
Proof.
  intros Hr.
  destruct (Req_dec_T v0 0) as [Hz | Hv].
  { rewrite Hz, angle_for_range_zero_speed in Hr; discriminate. }
  split; [exact Hv |].
  destruct (Rlt_le_dec (g * Rng / v0 ^ 2) (-1)) as [Hlo | Hlo].
  { rewrite angle_for_range_outside in Hr by (assumption || now left).
    discriminate. }
  destruct (Rlt_le_dec 1 (g * Rng / v0 ^ 2)) as [Hhi | Hhi].
  { rewrite angle_for_range_outside in Hr by (assumption || now right).
    discriminate. }
  rewrite angle_for_range_inside in Hr by (assumption || lra).
  inversion Hr. repeat split; lra.
Qed.

Lemma roots_sine (v0 Rng g low high : R) :
  angle_for_range v0 Rng g = Ok (Some (low, high)) ->
  v0 ^ 2 * sin (2 * low) = g * Rng /\ v0 ^ 2 * sin (2 * high) = g * Rng.
Proof.
  intros Hr.
  destruct (angle_for_range_some_inv _ _ _ _ _ Hr) as (Hv & Harg & -> & ->).
  set (arg := g * Rng / v0 ^ 2) in *.
  assert (Hval : v0 ^ 2 * arg = g * Rng) by (unfold arg; field; exact Hv).
  replace (2 * (0.5 * asin arg)) with (asin arg) by lra.
  replace (2 * (0.5 * (PI - asin arg))) with (PI - asin arg) by lra.
  rewrite sin_PI_x, sin_asin by exact Harg.
  split; exact Hval.
Qed.

Lemma angle_for_range_none_inv (v0 Rng g : R) :
  v0 <> 0 ->
  angle_for_range v0 Rng g = Ok None ->
  g * Rng / v0 ^ 2 < -1 \/ 1 < g * Rng / v0 ^ 2.
Proof.
  intros Hv Hr.
  destruct (Rlt_le_dec (g * Rng / v0 ^ 2) (-1)) as [Hlo | Hlo];
    [now left |].
  destruct (Rlt_le_dec 1 (g * Rng / v0 ^ 2)) as [Hhi | Hhi];
    [now right |].
  rewrite angle_for_range_inside in Hr by (assumption || lra).
  discriminate.
Qed.

(** Both returned angles solve the range equation of the docstring,
    [R = (v0^2/g) * sin(2 theta)], here with [g] multiplied out; they add up
    to a right angle and the first is the smaller one. *)
Theorem angle_for_range_range_equation (v0 Rng g low high : R) :
  angle_for_range v0 Rng g = Ok (Some (low, high)) ->
  v0 ^ 2 * sin (2 * low) = g * Rng /\
  v0 ^ 2 * sin (2 * high) = g * Rng /\
  low + high = PI / 2 /\
  low <= high.
Proof.
  intros Hr.
  destruct (roots_sine _ _ _ _ _ Hr) as [Hlow Hhigh].
  destruct (angle_for_range_some_inv _ _ _ _ _ Hr) as (_ & _ & -> & ->).
  pose proof (asin_bound (g * Rng / v0 ^ 2)) as [Hlo Hhi].
  repeat split; try assumption; lra.
Qed.

Lemma angle_for_range_range_equation_witness :
  4 ^ 2 * sin (2 * (0.5 * asin (G * 1 / 4 ^ 2))) = G * 1 /\
  4 ^ 2 * sin (2 * (0.5 * (PI - asin (G * 1 / 4 ^ 2)))) = G * 1 /\
  0.5 * asin (G * 1 / 4 ^ 2) + 0.5 * (PI - asin (G * 1 / 4 ^ 2)) = PI / 2 /\
  0.5 * asin (G * 1 / 4 ^ 2) <= 0.5 * (PI - asin (G * 1 / 4 ^ 2)).
Proof.
  apply (angle_for_range_range_equation 4 1 G). exact roots_unit_east.
Defined.

(** With [v0 <> 0] the answer is [None] exactly when [|g * R|] exceeds
    [v0^2]; a range that is negative but not beyond [-v0^2/g] is given
    angles all the same. *)
Theorem angle_for_range_none_iff (v0 Rng g : R) :
  v0 <> 0 ->
  (angle_for_range v0 Rng g = Ok None <-> v0 ^ 2 < Rabs (g * Rng)).
Proof.
  intros Hv.
  assert (Hsq : 0 < v0 ^ 2).
  { replace (v0 ^ 2) with (v0 * v0) by ring. nra. }
  assert (Hval : g * Rng / v0 ^ 2 * v0 ^ 2 = g * Rng) by (field; lra).
  set (arg := g * Rng / v0 ^ 2) in *.
  split.
  - intros Hr.
    destruct (Rlt_le_dec arg (-1)) as [Hlo | Hlo].
    + unfold Rabs; destruct (Rcase_abs (g * Rng)); nra.
    + destruct (Rlt_le_dec 1 arg) as [Hhi | Hhi].
      * unfold Rabs; destruct (Rcase_abs (g * Rng)); nra.
      * rewrite angle_for_range_inside in Hr by (assumption || (fold arg; lra)).
        discriminate.
  - intros Habs. apply angle_for_range_outside; [exact Hv |]. fold arg.
    unfold Rabs in Habs; destruct (Rcase_abs (g * Rng)).
    + left. nra.
    + right. nra.
Qed.

Lemma angle_for_range_none_iff_witness :
  angle_for_range 1 (-2) 1 = Ok None <-> 1 ^ 2 < Rabs (1 * -2).
Proof. apply angle_for_range_none_iff; lra. Defined.

(** A longer range raises the low arc and lowers the high arc. *)
Theorem angle_for_range_monotone (v0 g R1 R2 l1 h1 l2 h2 : R) :
  0 < g -> R1 <= R2 ->
  angle_for_range v0 R1 g = Ok (Some (l1, h1)) ->
  angle_for_range v0 R2 g = Ok (Some (l2, h2)) ->
  l1 <= l2 /\ h2 <= h1.
Proof.
  intros Hg HR H1 H2.
  destruct (angle_for_range_some_inv _ _ _ _ _ H1) as (Hv & Ha1 & -> & ->).
  destruct (angle_for_range_some_inv _ _ _ _ _ H2) as (_ & Ha2 & -> & ->).
  assert (Hsq : 0 < v0 ^ 2).
  { replace (v0 ^ 2) with (v0 * v0) by ring. nra. }
  assert (Hle : g * R1 / v0 ^ 2 <= g * R2 / v0 ^ 2).
  { unfold Rdiv. apply Rmult_le_compat_r.
    - left; apply Rinv_0_lt_compat; exact Hsq.
    - nra. }
  pose proof (asin_monotone _ _ (proj1 Ha1) Hle (proj2 Ha2)).
  lra.
Qed.

Lemma angle_for_range_monotone_witness :
  0.5 * asin (G * 0 / 4 ^ 2) <= 0.5 * asin (G * 1 / 4 ^ 2) /\
  0.5 * (PI - asin (G * 1 / 4 ^ 2)) <= 0.5 * (PI - asin (G * 0 / 4 ^ 2)).
Proof.
  apply (angle_for_range_monotone 4 G 0 1); try (unfold G; lra).
  - apply angle_for_range_inside; unfold G; lra.
  - exact roots_unit_east.
Defined.

(** ** [heading_speed_to_vxvy] *)

Lemma degrees_radians (x : R) : degrees (radians x) = x.
Proof.
  unfold degrees, radians. pose proof PI_RGT_0. field; lra.
Qed.

(** The components have the magnitude [|speed|], whatever the heading. *)
Theorem heading_speed_magnitude (speed_mps heading_deg : R) :
  norm (fst (heading_speed_to_vxvy speed_mps heading_deg))
       (snd (heading_speed_to_vxvy speed_mps heading_deg))
  = Ok (Rabs speed_mps).
Proof.
  unfold heading_speed_to_vxvy; cbn [fst snd].
  rewrite norm_ok; f_equal.
  set (th := radians heading_deg).
  pose proof (sin2_cos2 th) as Hsc; unfold Rsqr in Hsc.
  replace (speed_mps * cos th * (speed_mps * cos th) +
           speed_mps * sin th * (speed_mps * sin th))
    with (Rsqr speed_mps) by (unfold Rsqr; nra).
  apply sqrt_Rsqr_abs.
Qed.

(** The conventions of the docstring: 0 degrees is +x, 90 degrees is +y,
    and the heading grows counter-clockwise through -x and -y. *)
Theorem heading_speed_cardinal (speed_mps : R) :
  heading_speed_to_vxvy speed_mps 0 = (speed_mps, 0) /\
  heading_speed_to_vxvy speed_mps 90 = (0, speed_mps) /\
  heading_speed_to_vxvy speed_mps 180 = (- speed_mps, 0) /\
  heading_speed_to_vxvy speed_mps 270 = (0, - speed_mps).
Proof.
  pose proof PI_RGT_0 as Hpi.
  unfold heading_speed_to_vxvy, radians.
  replace (0 * (PI / 180)) with 0 by lra.
  replace (90 * (PI / 180)) with (PI / 2) by lra.
  replace (180 * (PI / 180)) with PI by lra.
  replace (270 * (PI / 180)) with (PI / 2 + PI) by lra.
  rewrite neg_cos, neg_sin.
  rewrite cos_0, sin_0, cos_PI2, sin_PI2, cos_PI, sin_PI.
  repeat split; f_equal; ring.
Qed.

(** A full turn changes nothing, and a negative speed is the positive one
    on the opposite heading. *)
Theorem heading_speed_turns (speed_mps heading_deg : R) :
  heading_speed_to_vxvy speed_mps (heading_deg + 360)
    = heading_speed_to_vxvy speed_mps heading_deg /\
  heading_speed_to_vxvy (- speed_mps) heading_deg
    = heading_speed_to_vxvy speed_mps (heading_deg + 180).
Proof.
  pose proof PI_RGT_0 as Hpi.
  unfold heading_speed_to_vxvy, radians.
  replace ((heading_deg + 360) * (PI / 180))
    with (heading_deg * (PI / 180) + 2 * INR 1 * PI) by (cbn [INR]; lra).
  replace ((heading_deg + 180) * (PI / 180))
    with (heading_deg * (PI / 180) + PI) by lra.
  rewrite cos_period, sin_period, neg_cos, neg_sin.
  split; f_equal; ring.
Qed.

Lemma tan_shift_PI (x : R) : cos x <> 0 -> tan (x + PI) = tan x.
Proof.
  intros Hc; unfold tan. rewrite neg_sin, neg_cos. field; exact Hc.
Qed.

(** [atan2] recovers the angle of a point given in polar form. *)
Lemma atan2_polar (s th : R) :
  0 < s -> - PI < th <= PI -> atan2 (s * sin th) (s * cos th) = th.
Proof.
  intros Hs [Hlo Hhi].
  pose proof PI_RGT_0 as Hpi.
  assert (Htan : cos th <> 0 -> s * sin th / (s * cos th) = tan th).
  { intros Hc; unfold tan; field; lra. }
  unfold atan2.
  destruct (Rlt_le_dec th (- (PI / 2))) as [Hq3 | Hq].
  - (* third quadrant *)
    assert (Hc : cos th < 0).
    { rewrite <- cos_neg. apply cos_lt_0; lra. }
    assert (Hsn : sin th < 0) by (apply sin_lt_0_var; lra).
    rewrite (Rltb_false 0 (s * cos th)) by nra.
    rewrite (Rltb_true (s * cos th) 0) by nra.
    rewrite (Rleb_false 0 (s * sin th)) by nra.
    rewrite Htan by lra.
    rewrite <- (tan_shift_PI th) by lra.
    rewrite atan_tan by lra. lra.
  - destruct (Req_dec_T th (- (PI / 2))) as [Heq | Hne].
    + rewrite Heq, cos_neg, sin_neg, cos_PI2, sin_PI2.
      repeat match goal with
             | |- context [?a <? ?b] => destruct (Rltb_spec a b); try lra
             end.
    + destruct (Rlt_le_dec th (PI / 2)) as [Hq1 | Hq2].
      * assert (Hc : 0 < cos th) by (apply cos_gt_0; lra).
        rewrite (Rltb_true 0 (s * cos th)) by nra.
        rewrite Htan by lra.
        apply atan_tan; lra.
      * destruct (Req_dec_T th (PI / 2)) as [Heq | Hne2].
        -- rewrite Heq, cos_PI2, sin_PI2.
           repeat match goal with
                  | |- context [?a <? ?b] => destruct (Rltb_spec a b); try lra
                  end.
        -- assert (Hc : cos th < 0) by (apply cos_lt_0; lra).
           assert (Hsn : 0 <= sin th) by (apply sin_ge_0; lra).
           rewrite (Rltb_false 0 (s * cos th)) by nra.
           rewrite (Rltb_true (s * cos th) 0) by nra.
           rewrite (Rleb_true 0 (s * sin th)) by nra.
           rewrite Htan by lra.
           assert (Hc' : cos (th - PI) <> 0).
           { pose proof (neg_cos (th - PI)) as Hn.
             replace (th - PI + PI) with th in Hn by ring. lra. }
           assert (Ht : tan th = tan (th - PI)).
           { rewrite <- (tan_shift_PI (th - PI) Hc'). f_equal; ring. }
           rewrite Ht, atan_tan by lra. lra.
Qed.

(** Round trip with the azimuth convention of [solve_fire]: for a positive
    speed and a heading in (-180, 180], the direction [atan2(vy, vx)] of
    the components, in degrees, is the heading. *)
Theorem heading_speed_round_trip (speed_mps heading_deg : R) :
  0 < speed_mps ->
  -180 < heading_deg <= 180 ->
  degrees (atan2 (snd (heading_speed_to_vxvy speed_mps heading_deg))
                 (fst (heading_speed_to_vxvy speed_mps heading_deg)))
  = heading_deg.
Proof.
  intros Hs [Hlo Hhi].
  pose proof PI_RGT_0 as Hpi.
  unfold heading_speed_to_vxvy; cbn [fst snd].
  rewrite atan2_polar.
  - apply degrees_radians.
  - exact Hs.
  - unfold radians; split; nra.
Qed.

Lemma heading_speed_round_trip_witness :
  degrees (atan2 (snd (heading_speed_to_vxvy 10 135))
                 (fst (heading_speed_to_vxvy 10 135))) = 135.
Proof. apply heading_speed_round_trip; lra. Defined.

(** * Further properties of [solve_fire] *)

Lemma atan2_range (y x : R) : - PI < atan2 y x <= PI.
Proof.
  pose proof PI_RGT_0 as Hpi.
  unfold atan2.
  destruct (Rltb_spec 0 x) as [Hx | Hx].
  - pose proof (atan_bound (y / x)); lra.
  - destruct (Rltb_spec x 0) as [Hx' | Hx'].
    + destruct (Rleb_spec 0 y) as [Hy | Hy].
      * assert (Hq : y / x <= 0).
        { unfold Rdiv.
          assert (/ x < 0) by (apply Rinv_lt_0_compat; exact Hx'). nra. }
        pose proof (atan_bound (y / x)) as [Hlo _].
        assert (atan (y / x) <= 0).
        { destruct Hq as [Hq | Hq].
          - left. rewrite <- atan_0. apply atan_increasing; exact Hq.
          - rewrite Hq, atan_0; lra. }
        lra.
      * assert (Hq : 0 < y / x).
        { unfold Rdiv.
          assert (/ x < 0) by (apply Rinv_lt_0_compat; exact Hx'). nra. }
        pose proof (atan_bound (y / x)) as [_ Hhi].
        assert (0 < atan (y / x)).
        { rewrite <- atan_0. apply atan_increasing; exact Hq. }
        lra.
    + destruct (Rltb_spec 0 y); [lra |].
      destruct (Rltb_spec y 0); lra.
Qed.

Lemma degrees_monotone (a b : R) : a <= b -> degrees a <= degrees b.
Proof.
  intros Hab; unfold degrees.
  pose proof PI_RGT_0 as Hpi.
  apply Rmult_le_compat_r; [| exact Hab].
  left; apply Rdiv_lt_0_compat; lra.
Qed.

Lemma degrees_strict (a b : R) : a < b -> degrees a < degrees b.
Proof.
  intros Hab; unfold degrees.
  pose proof PI_RGT_0 as Hpi.
  apply Rmult_lt_compat_r; [| exact Hab].
  apply Rdiv_lt_0_compat; lra.
Qed.

Lemma degrees_values :
  degrees 0 = 0 /\ degrees (PI / 4) = 45 /\ degrees (PI / 2) = 90 /\
  degrees PI = 180 /\ degrees (- PI) = -180.
Proof.
  pose proof PI_RGT_0 as Hpi.
  unfold degrees; repeat split; field; lra.
Qed.

(** The roots that [solve_fire] can see: the range is a norm, hence not
    negative, so the low root is in [0, PI/4] and the high one in
    [PI/4, PI/2]. *)
Lemma roots_band (v0 Rng low high : R) :
  0 <= Rng ->
  angle_for_range v0 Rng G = Ok (Some (low, high)) ->
  0 <= low <= PI / 4 /\ PI / 4 <= high <= PI / 2.
Proof.
  intros HR Hr.
  destruct (angle_for_range_some_inv _ _ _ _ _ Hr) as (Hv & Harg & -> & ->).
  assert (Hsq : 0 < v0 ^ 2).
  { replace (v0 ^ 2) with (v0 * v0) by ring. nra. }
  assert (Hpos : 0 <= G * Rng / v0 ^ 2).
  { unfold Rdiv; apply Rmult_le_pos.
    - pose proof G_pos; nra.
    - left; apply Rinv_0_lt_compat; exact Hsq. }
  pose proof (asin_nonneg _ (conj Hpos (proj2 Harg))).
  pose proof (asin_bound (G * Rng / v0 ^ 2)) as [_ ?].
  lra.
Qed.

Lemma horizontal_speed_pos (v0 theta : R) :
  0 < v0 -> 0 <= theta <= PI / 2 -> 1e-6 <= horizontal_speed v0 theta.
Proof.
  intros Hv Hth; unfold horizontal_speed; cbv zeta.
  pose proof PI_RGT_0 as Hpi.
  assert (Hc : 0 <= cos theta) by (apply cos_ge_0; lra).
  destruct (Rltb_spec (Rabs (v0 * cos theta)) 1e-6) as [Hlt | Hge]; [lra |].
  rewrite Rabs_pos_eq in Hge by nra. lra.
Qed.

Section SolverMore.

Variables own_pos target_pos own_vel target_vel wind_vel : R * R.
Variable v0 : R.
Variable prefer_high_arc : bool.
Variable max_iters : Z.
Variable tol_time : R.

Local Notation "'iteration_'" :=
  (iteration own_pos target_pos own_vel target_vel wind_vel v0
     prefer_high_arc tol_time).
Local Notation "'for_loop_'" :=
  (for_loop own_pos target_pos own_vel target_vel wind_vel v0
     prefer_high_arc tol_time).
Local Notation "'solve_fire_'" :=
  (solve_fire own_pos target_pos own_vel target_vel wind_vel v0
     prefer_high_arc max_iters tol_time).
Local Notation "'displacement_'" :=
  (displacement own_pos target_pos own_vel target_vel wind_vel).
Local Notation "'predicted_target_'" :=
  (predicted_target target_pos target_vel).
Local Notation "'drift_x'" := (fst own_vel + fst wind_vel).
Local Notation "'drift_y'" := (snd own_vel + snd wind_vel).

(** The record of a converged iteration, field by field. *)
Lemma iteration_converged (it : Z) (t Rng low high ux uy : R) :
  let d := displacement_ t in
  let theta := if prefer_high_arc then high else low in
  let t_new := Rng / horizontal_speed v0 theta in
  norm (fst d) (snd d) = Ok Rng ->
  angle_for_range v0 Rng G = Ok (Some (low, high)) ->
  unit (fst d) (snd d) = Ok (ux, uy) ->
  Rabs (t_new - t) < tol_time ->
  iteration_ it t =
    Ok (Return
      {| reachable := true;
         theta_deg := Some (degrees theta);
         azimuth_deg := Some (degrees (atan2 (snd d) (fst d)));
         time_s := Some t_new;
         impact_xy :=
           Some (fst own_pos + ux * Rng + drift_x * t_new,
                 snd own_pos + uy * Rng + drift_y * t_new);
         predicted_target_xy := Some (predicted_target_ t);
         iterations := it;
         low_high_deg := Some (degrees low, degrees high);
         max_range_m := None |}).
Proof.
  intros d theta t_new Hn Hr Hu Hconv.
  unfold iteration.
  unfold d, displacement in *; cbn [fst snd] in *.
  rewrite Hn; cbn [bind ret].
  rewrite Hr; cbn [bind ret].
  fold theta.
  unfold t_new, horizontal_speed in Hconv; cbv zeta in Hconv.
  rewrite py_div_ok by apply speed_floor_nonzero.
  cbn [bind ret].
  rewrite (Rltb_true _ _ Hconv).
  rewrite Hu; cbn [bind ret].
  reflexivity.
Qed.

(** Every way an iteration can end. *)
Lemma iteration_inv (it : Z) (t : R) (r : step_result) :
  iteration_ it t = Ok r ->
  let d := displacement_ t in
  exists Rng,
    norm (fst d) (snd d) = Ok Rng /\ 0 <= Rng /\ v0 <> 0 /\
    ((angle_for_range v0 Rng G = Ok None /\
      r = Return
        {| reachable := false;
           theta_deg := None;
           azimuth_deg := Some (degrees (atan2 (snd d) (fst d)));
           time_s := None;
           impact_xy := None;
           predicted_target_xy := Some (predicted_target_ t);
           iterations := it;
           low_high_deg := None;
           max_range_m := Some (v0 ^ 2 / G) |})
     \/
     exists low high ux uy,
       angle_for_range v0 Rng G = Ok (Some (low, high)) /\
       unit (fst d) (snd d) = Ok (ux, uy) /\
       let theta := if prefer_high_arc then high else low in
       let t_new := Rng / horizontal_speed v0 theta in
       ((Rabs (t_new - t) < tol_time /\
         r = Return
           {| reachable := true;
              theta_deg := Some (degrees theta);
              azimuth_deg := Some (degrees (atan2 (snd d) (fst d)));
              time_s := Some t_new;
              impact_xy :=
                Some (fst own_pos + ux * Rng + drift_x * t_new,
                      snd own_pos + uy * Rng + drift_y * t_new);
              predicted_target_xy := Some (predicted_target_ t);
              iterations := it;
              low_high_deg := Some (degrees low, degrees high);
              max_range_m := None |})
        \/
        (tol_time <= Rabs (t_new - t) /\
         r = Continue
           {| st_t := t_new;
              st_theta_rad := Some theta;
              st_azimuth_rad := Some (atan2 (snd d) (fst d));
              st_locals :=
                Some {| loc_dx := fst d; loc_dy := snd d; loc_R := Rng;
                        loc_xt := fst (predicted_target_ t);
                        loc_yt := snd (predicted_target_ t) |} |}))).
Proof.
  intros Hit d.
  pose proof (norm_ok (fst d) (snd d)) as Hn.
  exists (sqrt (fst d * fst d + snd d * snd d)).
  split; [exact Hn |].
  split; [apply sqrt_pos |].
  assert (Hv : v0 <> 0).
  { intros Hz. unfold iteration in Hit.
    rewrite norm_ok in Hit; cbn [bind ret] in Hit.
    unfold angle_for_range, py_div in Hit.
    rewrite (Reqb_true (v0 ^ 2) 0) in Hit by (rewrite Hz; ring).
    discriminate. }
  split; [exact Hv |].
  destruct (angle_for_range_total v0
              (sqrt (fst d * fst d + snd d * snd d)) G Hv)
    as [[[low high] |] Hr].
  - right.
    destruct (unit_total (fst d) (snd d)) as [[ux uy] Hu].
    exists low, high, ux, uy.
    split; [exact Hr |]. split; [exact Hu |]. cbv zeta.
    set (theta := if prefer_high_arc then high else low).
    set (t_new := sqrt (fst d * fst d + snd d * snd d)
                  / horizontal_speed v0 theta).
    destruct (Rlt_le_dec (Rabs (t_new - t)) tol_time) as [Hconv | Hnot].
    + left; split; [exact Hconv |].
      pose proof (iteration_converged it t _ low high ux uy Hn Hr Hu Hconv)
        as Heq.
      fold d in Heq. rewrite Heq in Hit. inversion Hit; reflexivity.
    + right; split; [exact Hnot |].
      destruct (iteration_in_reach own_pos target_pos own_vel target_vel
                  wind_vel v0 prefer_high_arc tol_time it t _ low high Hn Hr)
        as [[Hconv _] | [_ Heq]].
      * exfalso. fold d in Hconv. unfold t_new, horizontal_speed in Hnot.
        cbv zeta in Hnot. fold theta in Hconv. lra.
      * rewrite Heq in Hit. inversion Hit; reflexivity.
  - left; split; [exact Hr |].
    rewrite (iteration_out_of_reach own_pos target_pos own_vel target_vel
               wind_vel v0 prefer_high_arc tol_time it t _ Hv Hn Hr) in Hit.
    inversion Hit; reflexivity.
Qed.

(** A result returned by the loop is the result of one of its iterations,
    and a state the loop ends in is the state it started from or the one
    left by its last iteration. *)
Lemma for_loop_inv (n : nat) :
  forall it st r,
    for_loop_ n it st = Ok r ->
    match r with
    | Return s =>
        exists k t, (it <= k < it + Z.of_nat n)%Z /\
                    iteration_ k t = Ok (Return s)
    | Continue st' =>
        (n = 0%nat /\ st' = st) \/
        (exists t, (1 <= n)%nat /\
                   iteration_ (it + Z.of_nat n - 1)%Z t = Ok (Continue st'))
    end.
Proof.
  induction n as [| n IH]; intros it st r Hl; cbn [for_loop] in Hl.
  - inversion Hl; subst r. left; split; reflexivity.
  - destruct (iteration_ it (st_t st)) as [[s' | st1] | e] eqn:Hit;
      cbn [bind ret] in Hl; try discriminate.
    + inversion Hl; subst r. exists it, (st_t st). split; [lia | exact Hit].
    + specialize (IH _ _ _ Hl). destruct r as [s | st'].
      * destruct IH as (k & t & Hk & Hk').
        exists k, t; split; [lia | exact Hk'].
      * right. destruct IH as [[Hn ->] | (t & Hn & Hk)].
        -- exists (st_t st). split; [lia |]. subst n.
           replace (it + Z.of_nat 1 - 1)%Z with it by lia. exact Hit.
        -- exists t. split; [lia |].
           replace (it + Z.of_nat (S n) - 1)%Z
             with (it + 1 + Z.of_nat n - 1)%Z by lia.
           exact Hk.
Qed.

(** Every result of [solve_fire] is the result of an iteration with
    counter in [1 .. max_iters], or is built after the loop from the state
    the loop ended in. *)
Lemma solve_fire_inv (s : solution) :
  solve_fire_ = Ok s ->
  exists t0,
    seed own_pos target_pos v0 = Ok t0 /\ 0 < v0 /\
    ((exists k t, (1 <= k <= max_iters)%Z /\ iteration_ k t = Ok (Return s))
     \/
     (exists st,
        for_loop_ (Z.to_nat max_iters) 1%Z (init_state t0) = Ok (Continue st) /\
        after_loop own_pos own_vel wind_vel max_iters st = Ok s)).
Proof.
  intros Hs.
  destruct (seed own_pos target_pos v0) as [t0 | e] eqn:Hseed.
  2:{ unfold solve_fire in Hs; rewrite Hseed in Hs; discriminate. }
  exists t0. split; [reflexivity |].
  split; [exact (seed_positive_speed _ _ _ _ Hseed) |].
  rewrite (solve_fire_unfold _ _ _ _ _ _ _ _ _ t0 Hseed) in Hs.
  destruct (for_loop_ _ _ _) as [[s' | st] | e] eqn:Hl; try discriminate.
  - left. inversion Hs; subst s'.
    destruct (for_loop_inv _ _ _ _ Hl) as (k & t & Hk & Hit).
    exists k, t; split; [lia | exact Hit].
  - right. exists st; split; [reflexivity | exact Hs].
Qed.

Lemma seed_nonneg (t0 : R) : seed own_pos target_pos v0 = Ok t0 -> 0 <= t0.
Proof.
  intros Hs. pose proof (seed_positive_speed _ _ _ _ Hs) as Hv.
  unfold seed in Hs. rewrite norm_ok in Hs; cbn [bind ret] in Hs.
  rewrite Rleb_false in Hs by exact Hv.
  rewrite py_div_ok in Hs
    by (unfold Rpower; pose proof (exp_pos (0.5 * ln 2)); lra).
  cbn [bind ret] in Hs.
  pose proof (py_max_floor (v0 / Rpower 2 0.5)) as Hfl.
  rewrite py_div_ok in Hs by lra.
  inversion Hs. unfold Rdiv. apply Rmult_le_pos; [apply sqrt_pos |].
  left; apply Rinv_0_lt_compat; lra.
Qed.

(** The four shapes of a result: built after a loop that never ran; the
    out-of-range record of an iteration; the record of a converged
    iteration; and, after the last iteration failed the tolerance, the
    record that iteration would have returned, without the low/high
    pair. *)
Lemma solve_fire_cases (s : solution) :
  solve_fire_ = Ok s ->
  exists t0,
    seed own_pos target_pos v0 = Ok t0 /\ 0 < v0 /\ 0 <= t0 /\
    (((max_iters <= 0)%Z /\
      s = {| reachable := true;
             theta_deg := None;
             azimuth_deg := None;
             time_s := Some t0;
             impact_xy := None;
             predicted_target_xy := None;
             iterations := max_iters;
             low_high_deg := None;
             max_range_m := None |})
     \/
     exists k t Rng,
       (1 <= k <= max_iters)%Z /\
       let d := displacement_ t in
       norm (fst d) (snd d) = Ok Rng /\ 0 <= Rng /\
       ((angle_for_range v0 Rng G = Ok None /\
         s = {| reachable := false;
                theta_deg := None;
                azimuth_deg := Some (degrees (atan2 (snd d) (fst d)));
                time_s := None;
                impact_xy := None;
                predicted_target_xy := Some (predicted_target_ t);
                iterations := k;
                low_high_deg := None;
                max_range_m := Some (v0 ^ 2 / G) |})
        \/
        exists low high ux uy,
          angle_for_range v0 Rng G = Ok (Some (low, high)) /\
          unit (fst d) (snd d) = Ok (ux, uy) /\
          let theta := if prefer_high_arc then high else low in
          let t_new := Rng / horizontal_speed v0 theta in
          ((Rabs (t_new - t) < tol_time /\ low_high_deg s <> None) \/
           (tol_time <= Rabs (t_new - t) /\ low_high_deg s = None /\
            k = max_iters)) /\
          reachable s = true /\
          theta_deg s = Some (degrees theta) /\
          azimuth_deg s = Some (degrees (atan2 (snd d) (fst d))) /\
          time_s s = Some t_new /\
          impact_xy s =
            Some (fst own_pos + ux * Rng + drift_x * t_new,
                  snd own_pos + uy * Rng + drift_y * t_new) /\
          predicted_target_xy s = Some (predicted_target_ t) /\
          iterations s = k /\
          max_range_m s = None)).
Proof.
  intros Hs.
  destruct (solve_fire_inv s Hs)
    as (t0 & Hseed & Hv & [(k & t & Hk & Hit) | (st & Hl & Ha)]).
  - exists t0. split; [exact Hseed |]. split; [exact Hv |].
    split; [exact (seed_nonneg t0 Hseed) |].
    right. exists k, t.
    destruct (iteration_inv k t _ Hit)
      as (Rng & Hn & HR & _ &
          [[Hr Heq] | (low & high & ux & uy & Hr & Hu &
                       [[Hconv Heq] | [_ Heq]])]);
      try discriminate.
    + exists Rng. split; [exact Hk |]. cbv zeta.
      split; [exact Hn |]. split; [exact HR |].
      left; split; [exact Hr |]. inversion Heq; reflexivity.
    + exists Rng. split; [exact Hk |]. cbv zeta.
      split; [exact Hn |]. split; [exact HR |].
      right. exists low, high, ux, uy.
      split; [exact Hr |]. split; [exact Hu |].
      inversion Heq; subst s; cbn.
      split; [left; split; [exact Hconv | discriminate] |].
      repeat split; reflexivity.
  - exists t0. split; [exact Hseed |]. split; [exact Hv |].
    split; [exact (seed_nonneg t0 Hseed) |].
    destruct (for_loop_inv _ _ _ _ Hl) as [[Hn ->] | (t & Hn & Hit)].
    + left. split; [lia |].
      unfold after_loop in Ha; cbn in Ha. inversion Ha; reflexivity.
    + right.
      replace (1 + Z.of_nat (Z.to_nat max_iters) - 1)%Z with max_iters
        in Hit by lia.
      exists max_iters, t.
      destruct (iteration_inv max_iters t _ Hit)
        as (Rng & Hnorm & HR & _ &
            [[Hr Heq] | (low & high & ux & uy & Hr & Hu &
                         [[Hconv Heq] | [Hnot Heq]])]);
        try discriminate.
      exists Rng. split; [lia |]. cbv zeta.
      split; [exact Hnorm |]. split; [exact HR |].
      right. exists low, high, ux, uy.
      split; [exact Hr |]. split; [exact Hu |].
      inversion Heq; subst st; clear Heq.
      unfold after_loop in Ha; cbn [st_locals st_t loc_dx loc_dy] in Ha.
      pose proof Hu as Hu'. unfold displacement in Hu'; cbn [fst snd] in Hu'.
      rewrite Hu' in Ha; cbn [bind ret] in Ha.
      inversion Ha; subst s; cbn.
      split; [right; repeat split; assumption |].
      repeat split; reflexivity.
Qed.

(** The reachability flag gates the fields: an unreachable result has the
    azimuth, the predicted target and the maximum range and nothing else; a
    reachable one has a time of flight and no maximum range. *)
Theorem solve_fire_fields (s : solution) :
  solve_fire own_pos target_pos own_vel target_vel wind_vel v0
    prefer_high_arc max_iters tol_time = Ok s ->
  if reachable s
  then time_s s <> None /\ max_range_m s = None
  else theta_deg s = None /\ time_s s = None /\ impact_xy s = None /\
       low_high_deg s = None /\ azimuth_deg s <> None /\
       predicted_target_xy s <> None /\ max_range_m s = Some (v0 ^ 2 / G).
Proof.
  intros Hs.
  destruct (solve_fire_cases s Hs)
    as (t0 & _ & _ & _ &
        [[_ ->] | (k & t & Rng & _ & _ & _ &
                   [[_ ->] | (low & high & ux & uy & _ & _ & _ & Hr & _ & _ &
                              HT & _ & _ & _ & Hm)])]); cbn.
  - split; [discriminate | reflexivity].
  - repeat split; discriminate.
  - rewrite Hr, HT. split; [discriminate | exact Hm].
Qed.

(** The elevation of a result is between 0 and 90 degrees, at most 45 on
    the low arc and at least 45 on the high arc. *)
Theorem solve_fire_elevation_band (s : solution) :
  solve_fire own_pos target_pos own_vel target_vel wind_vel v0
    prefer_high_arc max_iters tol_time = Ok s ->
  match theta_deg s with
  | Some d =>
      0 <= d <= 90 /\ (if prefer_high_arc then 45 <= d else d <= 45)
  | None => True
  end.
Proof.
  intros Hs.
  destruct degrees_values as (D0 & D45 & D90 & _).
  destruct (solve_fire_cases s Hs)
    as (t0 & _ & _ & _ &
        [[_ ->] | (k & t & Rng & _ & _ & HR &
                   [[_ ->] | (low & high & ux & uy & Hroots & _ & _ & _ & Hth
                              & _)])]); cbn; trivial.
  rewrite Hth.
  destruct (roots_band _ _ _ _ HR Hroots) as [[Hl0 Hl1] [Hh0 Hh1]].
  pose proof PI_RGT_0 as Hpi.
  destruct prefer_high_arc.
  - pose proof (degrees_monotone _ _ Hh0).
    pose proof (degrees_monotone _ _ Hh1). lra.
  - pose proof (degrees_monotone _ _ Hl0).
    pose proof (degrees_monotone _ _ Hl1). lra.
Qed.

(** The azimuth of a result is between -180 and 180 degrees, both
    included. *)
Theorem solve_fire_azimuth_range (s : solution) :
  solve_fire own_pos target_pos own_vel target_vel wind_vel v0
    prefer_high_arc max_iters tol_time = Ok s ->
  match azimuth_deg s with
  | Some a => -180 <= a <= 180
  | None => True
  end.
Proof.
  intros Hs.
  destruct degrees_values as (_ & _ & _ & D180 & Dm180).
  assert (Haz : forall y x, -180 <= degrees (atan2 y x) <= 180).
  { intros y x. destruct (atan2_range y x) as [Hlo Hhi].
    pose proof (degrees_strict _ _ Hlo).
    pose proof (degrees_monotone _ _ Hhi). lra. }
  destruct (solve_fire_cases s Hs)
    as (t0 & _ & _ & _ &
        [[_ ->] | (k & t & Rng & _ & _ & _ &
                   [[_ ->] | (low & high & ux & uy & _ & _ & _ & _ & _ & Ha
                              & _)])]); cbn; trivial;
    try rewrite Ha; apply Haz.
Qed.

(** The time of flight of a result is never negative. *)
Theorem solve_fire_time_nonneg (s : solution) :
  solve_fire own_pos target_pos own_vel target_vel wind_vel v0
    prefer_high_arc max_iters tol_time = Ok s ->
  match time_s s with
  | Some T => 0 <= T
  | None => True
  end.
Proof.
  intros Hs.
  destruct (solve_fire_cases s Hs)
    as (t0 & _ & Hv & Ht0 &
        [[_ ->] | (k & t & Rng & _ & _ & HR &
                   [[_ ->] | (low & high & ux & uy & Hroots & _ & _ & _ & _
                              & _ & HT & _)])]); cbn; trivial.
  rewrite HT.
  destruct (roots_band _ _ _ _ HR Hroots) as [[Hl0 Hl1] [Hh0 Hh1]].
  pose proof PI_RGT_0 as Hpi.
  assert (Hsp : 1e-6 <= horizontal_speed v0
                          (if prefer_high_arc then high else low)).
  { apply horizontal_speed_pos; [exact Hv |].
    destruct prefer_high_arc; lra. }
  unfold Rdiv; apply Rmult_le_pos; [exact HR |].
  left; apply Rinv_0_lt_compat; lra.
Qed.

(** A converged result puts the impact point within [tol_time] times the
    drift speed (own ship plus wind) of the predicted target position, in
    each coordinate. *)
Theorem solve_fire_impact_near_target (s : solution) :
  solve_fire own_pos target_pos own_vel target_vel wind_vel v0
    prefer_high_arc max_iters tol_time = Ok s ->
  low_high_deg s <> None ->
  exists ix iy px py,
    impact_xy s = Some (ix, iy) /\
    predicted_target_xy s = Some (px, py) /\
    Rabs (ix - px) <= Rabs (fst own_vel + fst wind_vel) * tol_time /\
    Rabs (iy - py) <= Rabs (snd own_vel + snd wind_vel) * tol_time.
Proof.
  intros Hs Hlh.
  destruct (solve_fire_cases s Hs)
    as (t0 & _ & _ & _ &
        [[_ ->] | (k & t & Rng & _ & Hn & _ &
                   [[_ ->] | (low & high & ux & uy & _ & Hu &
                              [[Hconv _] | [_ [Hnone _]]] & _ & _ & _ & _ &
                              Hi & Hp & _)])]);
    try (cbn in Hlh; congruence).
  destruct (unit_rescale _ _ _ _ _ Hn Hu) as [Hx Hy].
  set (T := Rng / horizontal_speed v0 (if prefer_high_arc then high else low))
    in *.
  do 4 eexists. split; [exact Hi |]. split; [exact Hp |].
  unfold displacement in Hx, Hy; cbn [fst snd] in Hx, Hy.
  split.
  - replace (fst own_pos + ux * Rng + (fst own_vel + fst wind_vel) * T -
             (fst target_pos + fst target_vel * t))
      with ((fst own_vel + fst wind_vel) * (T - t)) by (rewrite Hx; ring).
    rewrite Rabs_mult.
    apply Rmult_le_compat_l; [apply Rabs_pos | lra].
  - replace (snd own_pos + uy * Rng + (snd own_vel + snd wind_vel) * T -
             (snd target_pos + snd target_vel * t))
      with ((snd own_vel + snd wind_vel) * (T - t)) by (rewrite Hy; ring).
    rewrite Rabs_mult.
    apply Rmult_le_compat_l; [apply Rabs_pos | lra].
Qed.

(** With a cap of at least one iteration a reachable result has all of
    elevation, time of flight and impact point, and they fit together: take
    the drift of own ship and wind over the time of flight off the impact
    point, and the distance [R] from own ship to what is left satisfies the
    range equation [v0^2 * sin (2 theta) = G * R] and is covered at the
    horizontal speed in the time of flight. *)
Theorem solve_fire_ballistic (s : solution) :
  solve_fire own_pos target_pos own_vel target_vel wind_vel v0
    prefer_high_arc max_iters tol_time = Ok s ->
  (1 <= max_iters)%Z ->
  reachable s = true ->
  exists theta T ix iy Rng,
    theta_deg s = Some (degrees theta) /\
    time_s s = Some T /\
    impact_xy s = Some (ix, iy) /\
    norm (ix - fst own_pos - (fst own_vel + fst wind_vel) * T)
         (iy - snd own_pos - (snd own_vel + snd wind_vel) * T) = Ok Rng /\
    v0 ^ 2 * sin (2 * theta) = G * Rng /\
    horizontal_speed v0 theta * T = Rng.
Proof.
  intros Hs Hcap Hreach.
  destruct (solve_fire_cases s Hs)
    as (t0 & _ & Hv & _ &
        [[Hle _] | (k & t & Rng & _ & Hn & HR &
                   [[_ ->] | (low & high & ux & uy & Hroots & Hu & _ & _ &
                              Hth & _ & HT & Hi & _)])]);
    [lia | discriminate |].
  destruct (unit_rescale _ _ _ _ _ Hn Hu) as [Hx Hy].
  destruct (roots_band _ _ _ _ HR Hroots) as [[Hl0 Hl1] [Hh0 Hh1]].
  destruct (roots_sine _ _ _ _ _ Hroots) as [Hsl Hsh].
  pose proof PI_RGT_0 as Hpi.
  set (theta := if prefer_high_arc then high else low) in *.
  assert (Hsp : 1e-6 <= horizontal_speed v0 theta).
  { apply horizontal_speed_pos; [exact Hv |].
    unfold theta; destruct prefer_high_arc; lra. }
  exists theta, (Rng / horizontal_speed v0 theta).
  do 2 eexists. exists Rng.
  split; [exact Hth |]. split; [exact HT |]. split; [exact Hi |].
  split; [| split].
  - rewrite <- Hn. f_equal; rewrite <- ?Hx, <- ?Hy; ring.
  - unfold theta; destruct prefer_high_arc; assumption.
  - field; lra.
Qed.

(** A [return] inside the loop comes from an iteration that the loop
    reached. *)
Lemma for_loop_return_reaches (t0 : R) (n : nat) :
  forall it st s,
    reaches own_pos target_pos own_vel target_vel wind_vel v0
      prefer_high_arc tol_time t0 it st ->
    for_loop_ n it st = Ok (Return s) ->
    exists k st',
      reaches own_pos target_pos own_vel target_vel wind_vel v0
        prefer_high_arc tol_time t0 k st' /\
      (it <= k < it + Z.of_nat n)%Z /\
      iteration_ k (st_t st') = Ok (Return s).
Proof.
  induction n as [| n IH]; intros it st s Hreach Hl; cbn [for_loop] in Hl.
  - discriminate.
  - destruct (iteration_ it (st_t st)) as [[s' | st1] | e] eqn:Hit;
      cbn [bind ret] in Hl; try discriminate.
    + inversion Hl; subst s'.
      exists it, st. split; [exact Hreach |]. split; [lia | exact Hit].
    + destruct (IH _ _ _ (reaches_next _ _ _ _ _ _ _ _ _ _ _ _ Hreach Hit) Hl)
        as (k & st' & Hk & Hrange & Hret).
      exists k, st'. split; [exact Hk |]. split; [lia | exact Hret].
Qed.

(** An unreachable verdict is never wrong about the range it judged: the
    loop reached some iteration [k] of [1 .. max_iters], in the state [st]
    that the earlier iterations left, the compensated range at the time
    estimate of [st] is strictly beyond [v0^2/G] and was refused by
    [angle_for_range], and the result is the out-of-range record of that
    very iteration. *)
Theorem solve_fire_unreachable_sound (s : solution) :
  solve_fire own_pos target_pos own_vel target_vel wind_vel v0
    prefer_high_arc max_iters tol_time = Ok s ->
  reachable s = false ->
  exists t0 k st Rng,
    seed own_pos target_pos v0 = Ok t0 /\
    reaches own_pos target_pos own_vel target_vel wind_vel v0
      prefer_high_arc tol_time t0 k st /\
    (1 <= k <= max_iters)%Z /\
    let d :=
      displacement own_pos target_pos own_vel target_vel wind_vel (st_t st) in
    norm (fst d) (snd d) = Ok Rng /\
    angle_for_range v0 Rng G = Ok None /\
    v0 ^ 2 / G < Rng /\
    s = {| reachable := false;
           theta_deg := None;
           azimuth_deg := Some (degrees (atan2 (snd d) (fst d)));
           time_s := None;
           impact_xy := None;
           predicted_target_xy :=
             Some (predicted_target target_pos target_vel (st_t st));
           iterations := k;
           low_high_deg := None;
           max_range_m := Some (v0 ^ 2 / G) |}.
Proof.
  intros Hs Hreach.
  destruct (seed own_pos target_pos v0) as [t0 | e] eqn:Hseed.
  2:{ unfold solve_fire in Hs; rewrite Hseed in Hs; discriminate. }
  pose proof (seed_positive_speed _ _ _ _ Hseed) as Hv.
  rewrite (solve_fire_unfold _ _ _ _ _ _ _ _ _ t0 Hseed) in Hs.
  destruct (for_loop_ _ _ _) as [[s' | st] | e] eqn:Hl; try discriminate.
  2:{ destruct (after_loop_ok own_pos own_vel wind_vel max_iters st)
        as [s' (Ha & Hr & _)].
      rewrite Ha in Hs; inversion Hs; subst s'. congruence. }
  inversion Hs; subst s'; clear Hs.
  destruct (for_loop_return_reaches t0 _ _ _ _
              (reaches_first _ _ _ _ _ _ _ _ t0) Hl)
    as (k & st & Hk & Hrange & Hit).
  destruct (iteration_inv k (st_t st) _ Hit)
    as (Rng & Hn & HR & _ &
        [[Hnone Heq] | (low & high & ux & uy & _ & _ &
                        [[_ Heq] | [_ Heq]])]);
    try discriminate.
  2:{ inversion Heq; subst s; discriminate. }
  exists t0, k, st, Rng.
  split; [reflexivity |]. split; [exact Hk |]. split; [lia |].
  cbv zeta.
  split; [exact Hn |]. split; [exact Hnone |].
  split; [| inversion Heq; reflexivity].
  assert (Hsq : 0 < v0 ^ 2) by (apply pow_lt; exact Hv).
  pose proof G_pos as HG.
  destruct (angle_for_range_none_inv v0 Rng G ltac:(lra) Hnone) as [Hlo | Hhi].
  - exfalso.
    assert (0 <= G * Rng / v0 ^ 2).
    { unfold Rdiv; apply Rmult_le_pos; [nra |].
      left; apply Rinv_0_lt_compat; exact Hsq. }
    lra.
  - apply (Rmult_lt_reg_r G); [exact HG |].
    replace (v0 ^ 2 / G * G) with (v0 ^ 2) by (field; lra).
    apply (Rmult_lt_compat_r (v0 ^ 2)) in Hhi; [| exact Hsq].
    replace (G * Rng / v0 ^ 2 * v0 ^ 2) with (G * Rng) in Hhi
      by (field; lra).
    lra.
Qed.

(** With a cap below one the loop body never runs: the result is marked
    reachable and has the seed as time of flight, and neither elevation
    nor azimuth nor impact point nor predicted target. *)
Theorem solve_fire_empty_loop :
  0 < v0 ->
  (max_iters <= 0)%Z ->
  exists t0,
    seed own_pos target_pos v0 = Ok t0 /\
    solve_fire own_pos target_pos own_vel target_vel wind_vel v0
      prefer_high_arc max_iters tol_time =
      Ok {| reachable := true;
            theta_deg := None;
            azimuth_deg := None;
            time_s := Some t0;
            impact_xy := None;
            predicted_target_xy := None;
            iterations := max_iters;
            low_high_deg := None;
            max_range_m := None |}.
Proof.
  intros Hv Hcap.
  destruct (seed_total own_pos target_pos v0 Hv) as [t0 Hseed].
  exists t0; split; [exact Hseed |].
  rewrite (solve_fire_unfold _ _ _ _ _ _ _ _ _ t0 Hseed).
  replace (Z.to_nat max_iters) with 0%nat by lia.
  reflexivity.
Qed.

(** With a tolerance that is not positive nothing ever converges: no result
    has the low/high pair, and a reachable result is the one built after
    the whole loop. *)
Theorem solve_fire_tolerance_nonpositive (s : solution) :
  tol_time <= 0 ->
  solve_fire own_pos target_pos own_vel target_vel wind_vel v0
    prefer_high_arc max_iters tol_time = Ok s ->
  low_high_deg s = None /\
  (reachable s = true -> iterations s = max_iters).
Proof.
  intros Htol Hs.
  destruct (solve_fire_cases s Hs)
    as (t0 & _ & _ & _ &
        [[_ ->] | (k & t & Rng & _ & _ & _ &
                   [[_ ->] | (low & high & ux & uy & _ & _ &
                              [[Hconv _] | [_ [Hnone Hk]]] & _ & _ & _ & _ &
                              _ & _ & Hit & _)])]); cbn.
  - split; reflexivity.
  - split; [reflexivity | discriminate].
  - exfalso.
    pose proof (Rabs_pos
      (Rng / horizontal_speed v0 (if prefer_high_arc then high else low) - t)).
    lra.
  - split; [exact Hnone | intros _; congruence].
Qed.

End SolverMore.

(** ** More on everything at rest *)

Lemma at_rest_predicted (target_pos : R * R) (t : R) :
  predicted_target target_pos (0, 0) t = target_pos.
Proof.
  destruct target_pos as [xt yt].
  unfold predicted_target; cbn [fst snd]. f_equal; ring.
Qed.

Lemma norm_nonneg (dx dy n : R) : norm dx dy = Ok n -> 0 <= n.
Proof.
  rewrite norm_ok; intros Hn; inversion Hn. apply sqrt_pos.
Qed.

Lemma norm_self (x y : R) : norm (x - x) (y - y) = Ok 0.
Proof.
  rewrite norm_ok; f_equal.
  replace ((x - x) * (x - x) + (y - y) * (y - y)) with 0 by ring.
  apply sqrt_0.
Qed.

Lemma range_arg_beyond (v0 Rng g : R) :
  0 < v0 -> 0 < g -> v0 ^ 2 / g < Rng -> 1 < g * Rng / v0 ^ 2.
Proof.
  intros Hv Hg HR.
  assert (Hsq : 0 < v0 ^ 2) by (apply pow_lt; assumption).
  apply (Rmult_lt_reg_r (v0 ^ 2)); [assumption |].
  replace (g * Rng / v0 ^ 2 * v0 ^ 2) with (g * Rng) by (field; lra).
  apply (Rmult_lt_compat_l g) in HR; [| assumption].
  replace (g * (v0 ^ 2 / g)) with (v0 ^ 2) in HR by (field; lra).
  lra.
Qed.

Lemma seed_value (own_pos target_pos : R * R) (v0 t0 : R) :
  seed own_pos target_pos v0 = Ok t0 ->
  t0 = sqrt ((fst target_pos - fst own_pos) * (fst target_pos - fst own_pos) +
             (snd target_pos - snd own_pos) * (snd target_pos - snd own_pos))
       / py_max (v0 / Rpower 2 0.5) 1e-6.
Proof.
  intros Hs. pose proof (seed_positive_speed _ _ _ _ Hs) as Hv.
  unfold seed in Hs. rewrite norm_ok in Hs; cbn [bind ret] in Hs.
  rewrite Rleb_false in Hs by exact Hv.
  rewrite py_div_ok in Hs
    by (unfold Rpower; pose proof (exp_pos (0.5 * ln 2)); lra).
  cbn [bind ret] in Hs.
  pose proof (py_max_floor (v0 / Rpower 2 0.5)) as Hfl.
  rewrite py_div_ok in Hs by lra.
  inversion Hs; reflexivity.
Qed.

(** At rest and out of range the first iteration gives up. *)
Lemma at_rest_out_of_reach
    (own_pos target_pos : R * R) (v0 : R) (prefer_high_arc : bool)
    (max_iters : Z) (tol_time R0 : R) :
  0 < v0 ->
  norm (fst target_pos - fst own_pos) (snd target_pos - snd own_pos) = Ok R0 ->
  v0 ^ 2 / G < R0 ->
  (1 <= max_iters)%Z ->
  solve_fire own_pos target_pos (0, 0) (0, 0) (0, 0) v0 prefer_high_arc
    max_iters tol_time =
    Ok {| reachable := false;
          theta_deg := None;
          azimuth_deg :=
            Some (degrees (atan2 (snd target_pos - snd own_pos)
                                 (fst target_pos - fst own_pos)));
          time_s := None;
          impact_xy := None;
          predicted_target_xy := Some target_pos;
          iterations := 1;
          low_high_deg := None;
          max_range_m := Some (v0 ^ 2 / G) |}.
Proof.
  intros Hv Hn HR Hcap.
  destruct (seed_total own_pos target_pos v0 Hv) as [t0 Hseed].
  rewrite (solve_fire_unfold _ _ _ _ _ _ _ _ _ t0 Hseed).
  replace (Z.to_nat max_iters) with (S (Z.to_nat (max_iters - 1))) by lia.
  cbn [for_loop].
  rewrite (iteration_out_of_reach _ _ _ _ _ _ _ _ 1 (st_t (init_state t0)) R0).
  - cbn [bind ret].
    rewrite at_rest_displacement, at_rest_predicted. reflexivity.
  - lra.
  - rewrite at_rest_displacement. exact Hn.
  - apply angle_for_range_outside; [lra | right].
    apply range_arg_beyond; [exact Hv | apply G_pos | exact HR].
Qed.

(** At rest, for either arc, any cap of at least one and any range from 0
    to [v0^2/G]: the result is reachable, aims along the line to the
    target, and has the preferred root as elevation, whether the loop
    converged or ran out. *)
Theorem solve_fire_at_rest_either_arc
    (own_pos target_pos : R * R) (v0 : R) (prefer_high_arc : bool)
    (max_iters : Z) (tol_time R0 : R) :
  0 < v0 ->
  norm (fst target_pos - fst own_pos) (snd target_pos - snd own_pos) = Ok R0 ->
  R0 <= v0 ^ 2 / G ->
  (1 <= max_iters)%Z ->
  exists low high s,
    angle_for_range v0 R0 G = Ok (Some (low, high)) /\
    solve_fire own_pos target_pos (0, 0) (0, 0) (0, 0) v0 prefer_high_arc
      max_iters tol_time = Ok s /\
    reachable s = true /\
    azimuth_deg s =
      Some (degrees (atan2 (snd target_pos - snd own_pos)
                           (fst target_pos - fst own_pos))) /\
    theta_deg s = Some (degrees (if prefer_high_arc then high else low)).
Proof.
  intros Hv Hn HR Hcap.
  pose proof (norm_nonneg _ _ _ Hn) as H0.
  assert (Harg : 0 <= G * R0 / v0 ^ 2 <= 1).
  { apply range_arg_bounds; [assumption | apply G_pos | lra]. }
  assert (Hroots : angle_for_range v0 R0 G =
            Ok (Some (0.5 * asin (G * R0 / v0 ^ 2),
                      0.5 * (PI - asin (G * R0 / v0 ^ 2))))).
  { apply angle_for_range_inside; lra. }
  destruct (at_rest_solve own_pos target_pos v0 prefer_high_arc max_iters
              tol_time R0 _ _ Hn Hroots Hv Hcap)
    as [s (Hs & Hreach & Hth & Haz & _)].
  eexists _, _, s.
  split; [exact Hroots |].
  split; [exact Hs |].
  split; [exact Hreach |].
  split; [exact Haz | exact Hth].
Qed.

Lemma solve_fire_at_rest_either_arc_witness :
  exists low high s,
    angle_for_range 4 1 G = Ok (Some (low, high)) /\
    solve_fire (0, 0) (1, 0) (0, 0) (0, 0) (0, 0) 4 true 1 1e-3 = Ok s /\
    reachable s = true /\
    azimuth_deg s = Some (degrees (atan2 (0 - 0) (1 - 0))) /\
    theta_deg s = Some (degrees (if true then high else low)).
Proof.
  apply (solve_fire_at_rest_either_arc (0, 0) (1, 0) 4 true 1 1e-3 1).
  - lra.
  - exact norm_unit_east.
  - unfold G; lra.
  - lia.
Defined.

(** At rest with the target beyond [v0^2/G]: the first iteration returns
    the out-of-range result, with the azimuth of the line to the target and
    the target's own position as predicted position. *)
Theorem solve_fire_at_rest_out_of_reach
    (own_pos target_pos : R * R) (v0 : R) (prefer_high_arc : bool)
    (max_iters : Z) (tol_time R0 : R) :
  0 < v0 ->
  norm (fst target_pos - fst own_pos) (snd target_pos - snd own_pos) = Ok R0 ->
  v0 ^ 2 / G < R0 ->
  (1 <= max_iters)%Z ->
  solve_fire own_pos target_pos (0, 0) (0, 0) (0, 0) v0 prefer_high_arc
    max_iters tol_time =
    Ok {| reachable := false;
          theta_deg := None;
          azimuth_deg :=
            Some (degrees (atan2 (snd target_pos - snd own_pos)
                                 (fst target_pos - fst own_pos)));
          time_s := None;
          impact_xy := None;
          predicted_target_xy := Some target_pos;
          iterations := 1;
          low_high_deg := None;
          max_range_m := Some (v0 ^ 2 / G) |}.
Proof. exact (at_rest_out_of_reach own_pos target_pos v0 prefer_high_arc
                max_iters tol_time R0). Qed.

Lemma norm_far_east : norm (100 - 0) (0 - 0) = Ok 100.
Proof.
  rewrite norm_ok; f_equal.
  replace ((100 - 0) * (100 - 0) + (0 - 0) * (0 - 0)) with (100 * 100)
    by ring.
  apply sqrt_square; lra.
Qed.

Lemma solve_fire_at_rest_out_of_reach_witness :
  solve_fire (0, 0) (100, 0) (0, 0) (0, 0) (0, 0) 18 false 12 1e-3 =
    Ok {| reachable := false;
          theta_deg := None;
          azimuth_deg := Some (degrees (atan2 (0 - 0) (100 - 0)));
          time_s := None;
          impact_xy := None;
          predicted_target_xy := Some (100, 0);
          iterations := 1;
          low_high_deg := None;
          max_range_m := Some (18 ^ 2 / G) |}.
Proof.
  apply (solve_fire_at_rest_out_of_reach (0, 0) (100, 0) 18 false 12 1e-3 100).
  - lra.
  - exact norm_far_east.
  - unfold G; lra.
  - lia.
Defined.

Lemma roots_zero_range (v0 : R) :
  0 < v0 -> angle_for_range v0 0 G = Ok (Some (0, PI / 2)).
Proof.
  intros Hv.
  assert (Hsq : 0 < v0 ^ 2) by (apply pow_lt; assumption).
  assert (Harg : G * 0 / v0 ^ 2 = 0) by (field; lra).
  rewrite angle_for_range_inside by lra.
  rewrite Harg, asin_0. do 3 f_equal; lra.
Qed.

Lemma roots_max_range (v0 : R) :
  0 < v0 -> angle_for_range v0 (v0 ^ 2 / G) G = Ok (Some (PI / 4, PI / 4)).
Proof.
  intros Hv. pose proof G_pos as HG.
  assert (Hsq : 0 < v0 ^ 2) by (apply pow_lt; assumption).
  assert (Harg : G * (v0 ^ 2 / G) / v0 ^ 2 = 1) by (field; lra).
  rewrite angle_for_range_inside by lra.
  rewrite Harg, asin_1. do 3 f_equal; lra.
Qed.

Lemma atan2_origin : atan2 0 0 = 0.
Proof.
  unfold atan2.
  rewrite (Rltb_false 0 0) by lra. reflexivity.
Qed.

(** Target and own ship at the same point, everything at rest: the first
    iteration converges with a time of flight of 0, the impact point on
    the spot, the azimuth 0 and the elevation 0 (low arc) or 90 degrees
    (high arc); [unit] meets the zero vector and divides nothing. *)
Theorem solve_fire_colocated
    (x y v0 : R) (prefer_high_arc : bool) (max_iters : Z) (tol_time : R) :
  0 < v0 ->
  (1 <= max_iters)%Z ->
  0 < tol_time ->
  exists s,
    solve_fire (x, y) (x, y) (0, 0) (0, 0) (0, 0) v0 prefer_high_arc
      max_iters tol_time = Ok s /\
    reachable s = true /\
    iterations s = 1%Z /\
    time_s s = Some 0 /\
    impact_xy s = Some (x, y) /\
    azimuth_deg s = Some 0 /\
    theta_deg s = Some (if prefer_high_arc then 90 else 0).
Proof.
  intros Hv Hcap Htol.
  destruct degrees_values as (D0 & _ & D90 & _).
  destruct (seed_total (x, y) (x, y) v0 Hv) as [t0 Hseed].
  assert (Ht0 : t0 = 0).
  { rewrite (seed_value _ _ _ _ Hseed); cbn [fst snd].
    replace ((x - x) * (x - x) + (y - y) * (y - y)) with 0 by ring.
    rewrite sqrt_0. unfold Rdiv; ring. }
  subst t0.
  rewrite (solve_fire_unfold _ _ _ _ _ _ _ _ _ 0 Hseed).
  replace (Z.to_nat max_iters) with (S (Z.to_nat (max_iters - 1))) by lia.
  cbn [for_loop st_t init_state].
  rewrite (iteration_converged (x, y) (x, y) (0, 0) (0, 0) (0, 0) v0
             prefer_high_arc tol_time 1 0 0 0 (PI / 2) 0 0).
  - cbn [bind ret]. eexists; split; [reflexivity |].
    cbn [reachable iterations time_s impact_xy azimuth_deg theta_deg].
    rewrite at_rest_displacement; cbn [fst snd].
    replace (x - x) with 0 by ring. replace (y - y) with 0 by ring.
    rewrite atan2_origin, D0.
    repeat split.
    + f_equal; unfold Rdiv; ring.
    + f_equal; f_equal; unfold Rdiv; ring.
    + destruct prefer_high_arc; [rewrite D90 | rewrite D0]; reflexivity.
  - rewrite at_rest_displacement; cbn [fst snd]. apply norm_self.
  - apply roots_zero_range; exact Hv.
  - rewrite at_rest_displacement; cbn [fst snd].
    replace (x - x) with 0 by ring. replace (y - y) with 0 by ring.
    apply unit_zero.
  - replace (0 / horizontal_speed v0 (if prefer_high_arc then PI / 2 else 0)
             - 0) with 0 by (unfold Rdiv; ring).
    rewrite Rabs_R0; exact Htol.
Qed.

Lemma solve_fire_colocated_witness :
  exists s,
    solve_fire (3, 4) (3, 4) (0, 0) (0, 0) (0, 0) 700 true 12 1e-3 = Ok s /\
    reachable s = true /\
    iterations s = 1%Z /\
    time_s s = Some 0 /\
    impact_xy s = Some (3, 4) /\
    azimuth_deg s = Some 0 /\
    theta_deg s = Some (if true then 90 else 0).
Proof.
  apply (solve_fire_colocated 3 4 700 true 12 1e-3); lra || lia.
Defined.

(** The speed assumed by the seed is the horizontal speed at 45 degrees,
    floor included. *)
Lemma seed_speed_is_45 (v0 : R) :
  0 < v0 -> horizontal_speed v0 (PI / 4) = py_max (v0 / Rpower 2 0.5) 1e-6.
Proof.
  intros Hv.
  assert (Hs2 : 0 < sqrt 2) by (apply sqrt_lt_R0; lra).
  replace 0.5 with (/ 2) by lra.
  rewrite Rpower_sqrt by lra.
  unfold horizontal_speed, py_max, Rgtb; cbv zeta.
  rewrite cos_PI4.
  replace (v0 * (1 / sqrt 2)) with (v0 / sqrt 2) by (field; lra).
  assert (Hpos : 0 < v0 / sqrt 2).
  { unfold Rdiv; apply Rmult_lt_0_compat;
      [exact Hv | apply Rinv_0_lt_compat; exact Hs2]. }
  rewrite Rabs_pos_eq by lra. reflexivity.
Qed.

(** At rest with the target exactly at the maximum range [v0^2/G]: the
    seed, which assumes 45 degrees, is already the fixed point, so the
    first iteration converges, with 45 degrees for either arc. *)
Theorem solve_fire_at_rest_max_range
    (own_pos target_pos : R * R) (v0 : R) (prefer_high_arc : bool)
    (max_iters : Z) (tol_time : R) :
  0 < v0 ->
  norm (fst target_pos - fst own_pos) (snd target_pos - snd own_pos)
    = Ok (v0 ^ 2 / G) ->
  (1 <= max_iters)%Z ->
  0 < tol_time ->
  exists s,
    solve_fire own_pos target_pos (0, 0) (0, 0) (0, 0) v0 prefer_high_arc
      max_iters tol_time = Ok s /\
    reachable s = true /\
    iterations s = 1%Z /\
    theta_deg s = Some 45 /\
    low_high_deg s = Some (45, 45).
Proof.
  intros Hv Hn Hcap Htol.
  destruct degrees_values as (_ & D45 & _).
  destruct (seed_total own_pos target_pos v0 Hv) as [t0 Hseed].
  pose proof (seed_value _ _ _ _ Hseed) as Ht0.
  pose proof Hn as Hn'. rewrite norm_ok in Hn'. inversion Hn' as [Hsqrt].
  rewrite Hsqrt in Ht0. clear Hn' Hsqrt.
  rewrite <- (seed_speed_is_45 v0 Hv) in Ht0.
  rewrite (solve_fire_unfold _ _ _ _ _ _ _ _ _ t0 Hseed).
  replace (Z.to_nat max_iters) with (S (Z.to_nat (max_iters - 1))) by lia.
  cbn [for_loop st_t init_state].
  destruct (unit_total (fst target_pos - fst own_pos)
                       (snd target_pos - snd own_pos)) as [[ux uy] Hu].
  rewrite (iteration_converged own_pos target_pos (0, 0) (0, 0) (0, 0) v0
             prefer_high_arc tol_time 1 t0 (v0 ^ 2 / G) (PI / 4) (PI / 4)
             ux uy).
  - cbn [bind ret]. eexists; split; [reflexivity |].
    cbn [reachable iterations theta_deg low_high_deg].
    rewrite D45.
    repeat split. destruct prefer_high_arc; rewrite D45; reflexivity.
  - rewrite at_rest_displacement; cbn [fst snd]. exact Hn.
  - apply roots_max_range; exact Hv.
  - rewrite at_rest_displacement; cbn [fst snd]. exact Hu.
  - replace (if prefer_high_arc then PI / 4 else PI / 4) with (PI / 4)
      by (destruct prefer_high_arc; reflexivity).
    rewrite Ht0.
    match goal with
    | |- Rabs ?e < _ => replace e with 0 by (unfold Rdiv; ring)
    end.
    rewrite Rabs_R0; exact Htol.
Qed.

Lemma norm_at_max_range :
  norm (1 / G - 0) (0 - 0) = Ok (1 ^ 2 / G).
Proof.
  pose proof G_pos as HG.
  rewrite norm_ok; f_equal.
  replace ((1 / G - 0) * (1 / G - 0) + (0 - 0) * (0 - 0))
    with ((1 / G) * (1 / G)) by ring.
  rewrite sqrt_square.
  - field; lra.
  - unfold Rdiv; apply Rmult_le_pos; [lra |].
    left; apply Rinv_0_lt_compat; exact HG.
Qed.

Lemma solve_fire_at_rest_max_range_witness :
  exists s,
    solve_fire (0, 0) (1 / G, 0) (0, 0) (0, 0) (0, 0) 1 false 12 1e-3
      = Ok s /\
    reachable s = true /\
    iterations s = 1%Z /\
    theta_deg s = Some 45 /\
    low_high_deg s = Some (45, 45).
Proof.
  apply (solve_fire_at_rest_max_range (0, 0) (1 / G, 0) 1 false 12 1e-3).
  - lra.
  - exact norm_at_max_range.
  - lia.
  - lra.
Defined.

(** ** Own-ship motion and wind enter through their sum *)

Section DriftSum.

Variables own_pos target_pos target_vel : R * R.
Variables own_vel wind_vel own_vel' wind_vel' : R * R.
Variable v0 : R.
Variable prefer_high_arc : bool.
Variable max_iters : Z.
Variable tol_time : R.

Hypothesis sum_x : fst own_vel + fst wind_vel = fst own_vel' + fst wind_vel'.
Hypothesis sum_y : snd own_vel + snd wind_vel = snd own_vel' + snd wind_vel'.

Lemma iteration_drift_sum (it : Z) (t : R) :
  iteration own_pos target_pos own_vel target_vel wind_vel v0
    prefer_high_arc tol_time it t =
  iteration own_pos target_pos own_vel' target_vel wind_vel' v0
    prefer_high_arc tol_time it t.
Proof.
  unfold iteration; cbv zeta.
  replace (fst target_pos + fst target_vel * t - fst own_vel * t
           - fst wind_vel * t - fst own_pos)
    with (fst target_pos + fst target_vel * t - fst own_vel' * t
          - fst wind_vel' * t - fst own_pos) by nra.
  replace (snd target_pos + snd target_vel * t - snd own_vel * t
           - snd wind_vel * t - snd own_pos)
    with (snd target_pos + snd target_vel * t - snd own_vel' * t
          - snd wind_vel' * t - snd own_pos) by nra.
  rewrite sum_x, sum_y. reflexivity.
Qed.

Lemma for_loop_drift_sum (n : nat) :
  forall it st,
    for_loop own_pos target_pos own_vel target_vel wind_vel v0
      prefer_high_arc tol_time n it st =
    for_loop own_pos target_pos own_vel' target_vel wind_vel' v0
      prefer_high_arc tol_time n it st.
Proof.
  induction n as [| n IH]; intros it st; cbn [for_loop]; [reflexivity |].
  rewrite iteration_drift_sum.
  destruct (iteration _ _ _ _ _ _ _ _ _ _) as [[s | st'] | e];
    cbn [bind ret]; [reflexivity | apply IH | reflexivity].
Qed.

Lemma after_loop_drift_sum (st : loop_state) :
  after_loop own_pos own_vel wind_vel max_iters st =
  after_loop own_pos own_vel' wind_vel' max_iters st.
Proof. unfold after_loop; rewrite sum_x, sum_y; reflexivity. Qed.

(** Two runs that differ only in how the drift is split between own-ship
    velocity and wind give the same result. *)
Theorem solve_fire_drift_sum :
  solve_fire own_pos target_pos own_vel target_vel wind_vel v0
    prefer_high_arc max_iters tol_time =
  solve_fire own_pos target_pos own_vel' target_vel wind_vel' v0
    prefer_high_arc max_iters tol_time.
Proof.
  unfold solve_fire.
  destruct (seed own_pos target_pos v0) as [t0 | e]; cbn [bind ret];
    [| reflexivity].
  rewrite for_loop_drift_sum.
  destruct (for_loop _ _ _ _ _ _ _ _ _ _ _) as [[s | st] | e];
    cbn [bind ret]; [reflexivity | apply after_loop_drift_sum | reflexivity].
Qed.

End DriftSum.

Lemma solve_fire_drift_sum_witness :
  solve_fire (0, 0) (5000, 0) (3, 4) (-5, 2) (1, 1) 700 false 12 1e-3 =
  solve_fire (0, 0) (5000, 0) (1, 1) (-5, 2) (3, 4) 700 false 12 1e-3.
Proof.
  apply (solve_fire_drift_sum (0, 0) (5000, 0) (-5, 2) (3, 4) (1, 1)
           (1, 1) (3, 4) 700 false 12 1e-3); cbn [fst snd]; lra.
Defined.

(** ** The further statements at concrete inputs *)

Lemma example_aimed :
  exists s,
    solve_fire (0, 0) (1, 0) (0, 0) (0, 0) (0, 0) 4 false 12 1e-3 = Ok s /\
    reachable s = true /\
    low_high_deg s <> None.
Proof.
  destruct (at_rest_solve (0, 0) (1, 0) 4 false 12 1e-3 1 _ _
              norm_unit_east roots_unit_east ltac:(lra) ltac:(lia))
    as [s (Hs & Hreach & _ & _ & Hconv & _)].
  destruct (Hconv ltac:(lra) ltac:(lia)) as [_ Hlh].
  exists s. split; [exact Hs |]. split; [exact Hreach |].
  rewrite Hlh; discriminate.
Qed.

Lemma example_out_of_reach :
  exists s,
    solve_fire (0, 0) (100, 0) (0, 0) (0, 0) (0, 0) 18 false 12 1e-3 = Ok s /\
    reachable s = false.
Proof.
  eexists; split.
  - apply (at_rest_out_of_reach (0, 0) (100, 0) 18 false 12 1e-3 100).
    + lra.
    + exact norm_far_east.
    + unfold G; lra.
    + lia.
  - reflexivity.
Qed.

Lemma solve_fire_fields_witness :
  exists s,
    solve_fire (0, 0) (1, 0) (0, 0) (0, 0) (0, 0) 4 false 12 1e-3 = Ok s /\
    if reachable s
    then time_s s <> None /\ max_range_m s = None
    else theta_deg s = None /\ time_s s = None /\ impact_xy s = None /\
         low_high_deg s = None /\ azimuth_deg s <> None /\
         predicted_target_xy s <> None /\ max_range_m s = Some (4 ^ 2 / G).
Proof.
  destruct example_aimed as [s (Hs & _)].
  exists s; split; [exact Hs |].
  exact (solve_fire_fields _ _ _ _ _ _ _ _ _ s Hs).
Defined.

Lemma solve_fire_elevation_band_witness :
  exists s,
    solve_fire (0, 0) (1, 0) (0, 0) (0, 0) (0, 0) 4 false 12 1e-3 = Ok s /\
    match theta_deg s with
    | Some d => 0 <= d <= 90 /\ (if false then 45 <= d else d <= 45)
    | None => True
    end.
Proof.
  destruct example_aimed as [s (Hs & _)].
  exists s; split; [exact Hs |].
  exact (solve_fire_elevation_band _ _ _ _ _ _ _ _ _ s Hs).
Defined.

Lemma solve_fire_azimuth_range_witness :
  exists s,
    solve_fire (0, 0) (1, 0) (0, 0) (0, 0) (0, 0) 4 false 12 1e-3 = Ok s /\
    match azimuth_deg s with
    | Some a => -180 <= a <= 180
    | None => True
    end.
Proof.
  destruct example_aimed as [s (Hs & _)].
  exists s; split; [exact Hs |].
  exact (solve_fire_azimuth_range _ _ _ _ _ _ _ _ _ s Hs).
Defined.

Lemma solve_fire_time_nonneg_witness :
  exists s,
    solve_fire (0, 0) (1, 0) (0, 0) (0, 0) (0, 0) 4 false 12 1e-3 = Ok s /\
    match time_s s with
    | Some T => 0 <= T
    | None => True
    end.
Proof.
  destruct example_aimed as [s (Hs & _)].
  exists s; split; [exact Hs |].
  exact (solve_fire_time_nonneg _ _ _ _ _ _ _ _ _ s Hs).
Defined.

Lemma solve_fire_impact_near_target_witness :
  exists s,
    solve_fire (0, 0) (1, 0) (0, 0) (0, 0) (0, 0) 4 false 12 1e-3 = Ok s /\
    low_high_deg s <> None /\
    exists ix iy px py,
      impact_xy s = Some (ix, iy) /\
      predicted_target_xy s = Some (px, py) /\
      Rabs (ix - px) <= Rabs (fst (0, 0) + fst (0, 0)) * 1e-3 /\
      Rabs (iy - py) <= Rabs (snd (0, 0) + snd (0, 0)) * 1e-3.
Proof.
  destruct example_aimed as [s (Hs & _ & Hlh)].
  exists s; split; [exact Hs |]. split; [exact Hlh |].
  exact (solve_fire_impact_near_target _ _ _ _ _ _ _ _ _ s Hs Hlh).
Defined.

Lemma solve_fire_ballistic_witness :
  exists s,
    solve_fire (0, 0) (1, 0) (0, 0) (0, 0) (0, 0) 4 false 12 1e-3 = Ok s /\
    reachable s = true /\
    exists theta T ix iy Rng,
      theta_deg s = Some (degrees theta) /\
      time_s s = Some T /\
      impact_xy s = Some (ix, iy) /\
      norm (ix - fst (0, 0) - (fst (0, 0) + fst (0, 0)) * T)
           (iy - snd (0, 0) - (snd (0, 0) + snd (0, 0)) * T) = Ok Rng /\
      4 ^ 2 * sin (2 * theta) = G * Rng /\
      horizontal_speed 4 theta * T = Rng.
Proof.
  destruct example_aimed as [s (Hs & Hreach & _)].
  exists s; split; [exact Hs |]. split; [exact Hreach |].
  exact (solve_fire_ballistic _ _ _ _ _ _ _ _ _ s Hs ltac:(lia) Hreach).
Defined.

Lemma solve_fire_unreachable_sound_witness :
  exists s,
    solve_fire (0, 0) (100, 0) (0, 0) (0, 0) (0, 0) 18 false 12 1e-3 = Ok s /\
    reachable s = false /\
    exists t0 k st Rng,
      seed (0, 0) (100, 0) 18 = Ok t0 /\
      reaches (0, 0) (100, 0) (0, 0) (0, 0) (0, 0) 18 false 1e-3 t0 k st /\
      (1 <= k <= 12)%Z /\
      let d := displacement (0, 0) (100, 0) (0, 0) (0, 0) (0, 0) (st_t st) in
      norm (fst d) (snd d) = Ok Rng /\
      angle_for_range 18 Rng G = Ok None /\
      18 ^ 2 / G < Rng /\
      s = {| reachable := false;
             theta_deg := None;
             azimuth_deg := Some (degrees (atan2 (snd d) (fst d)));
             time_s := None;
             impact_xy := None;
             predicted_target_xy :=
               Some (predicted_target (100, 0) (0, 0) (st_t st));
             iterations := k;
             low_high_deg := None;
             max_range_m := Some (18 ^ 2 / G) |}.
Proof.
  destruct example_out_of_reach as [s (Hs & Hreach)].
  exists s; split; [exact Hs |]. split; [exact Hreach |].
  exact (solve_fire_unreachable_sound _ _ _ _ _ _ _ _ _ s Hs Hreach).
Defined.

Lemma solve_fire_empty_loop_witness :
  exists t0,
    seed (0, 0) (5000, 0) 700 = Ok t0 /\
    solve_fire (0, 0) (5000, 0) (3, 4) (-5, 2) (1, 1) 700 false 0 1e-3 =
      Ok {| reachable := true;
            theta_deg := None;
            azimuth_deg := None;
            time_s := Some t0;
            impact_xy := None;
            predicted_target_xy := None;
            iterations := 0;
            low_high_deg := None;
            max_range_m := None |}.
Proof.
  apply (solve_fire_empty_loop (0, 0) (5000, 0) (3, 4) (-5, 2) (1, 1) 700
           false 0 1e-3).
  - lra.
  - lia.
Defined.

Lemma solve_fire_tolerance_nonpositive_witness :
  exists s,
    solve_fire (0, 0) (5000, 0) (3, 4) (-5, 2) (1, 1) 700 false 12 0 = Ok s /\
    low_high_deg s = None /\
    (reachable s = true -> iterations s = 12%Z).
Proof.
  destruct (solve_fire_count (0, 0) (5000, 0) (3, 4) (-5, 2) (1, 1) 700
              false 12 0 ltac:(lra)) as [s (Hs & _)].
  exists s; split; [exact Hs |].
  apply (solve_fire_tolerance_nonpositive (0, 0) (5000, 0) (3, 4) (-5, 2)
           (1, 1) 700 false 12 0 s); [lra | exact Hs].
Defined.

(** ** The ships of the table *)

(** Every ship of the table has a muzzle velocity, it is positive, and
    [solve_fire] therefore returns a result for it on every input. *)
Theorem ships_accepted (name : string) (ship : list (string * R)) :
  dict_get SHIPS name = Some ship ->
  exists mv,
    dict_get ship "muzzle_velocity" = Some mv /\
    0 < mv /\
    forall own_pos target_pos own_vel target_vel wind_vel
           prefer_high_arc max_iters tol_time,
    exists s,
      solve_fire own_pos target_pos own_vel target_vel wind_vel mv
        prefer_high_arc max_iters tol_time = Ok s.
Proof.
  intros Hget.
  assert (Hmv : exists mv,
            dict_get ship "muzzle_velocity" = Some mv /\ 0 < mv).
  { unfold SHIPS in Hget; cbn [dict_get] in Hget.
    repeat match type of Hget with
           | (if ?b then _ else _) = _ => destruct b
           end;
      try discriminate;
      inversion Hget; subst ship;
      eexists; (split; [reflexivity | lra]). }
  destruct Hmv as (mv & Hkey & Hpos).
  exists mv. split; [exact Hkey |]. split; [exact Hpos |].
  intros own_pos target_pos own_vel target_vel wind_vel
         prefer_high_arc max_iters tol_time.
  destruct (solve_fire_count own_pos target_pos own_vel target_vel wind_vel
              mv prefer_high_arc max_iters tol_time Hpos) as [s (Hs & _)].
  exists s; exact Hs.
Qed.

Lemma ships_accepted_witness :
  exists mv,
    dict_get [("muzzle_velocity", 18.0)]%string "muzzle_velocity" = Some mv /\
    0 < mv /\
    forall own_pos target_pos own_vel target_vel wind_vel
           prefer_high_arc max_iters tol_time,
    exists s,
      solve_fire own_pos target_pos own_vel target_vel wind_vel mv
        prefer_high_arc max_iters tol_time = Ok s.
Proof.
  apply (ships_accepted "Dolphin" [("muzzle_velocity", 18.0)]%string).
  reflexivity.
Defined.

(** * Exceptions on binary64 *)

Section Binary64Facts.

Import PrimFloat.
Local Open Scope float_scope.

Variables asin cos : float -> float.
Variable atan2 : float -> float -> float.

(** C7.  The claim fails on the code.  The speeds [1e-200] and [1e200] are
    positive and finite, and pass the check of line 129; in the first
    iteration [angle_for_range] squares the speed, and the square is
    rounded to zero, so that [g * R / (v0 ** 2)] is a float division by
    zero, or is out of range, which is Python's [OverflowError].  The seed
    divisor, the horizontal speed and the norm in [unit] are guarded in the
    source; this division is not. *)
Theorem solve_fire_binary64_raises :
  (0 <? 1e-200) = true /\ is_finite 1e-200 = true /\
  Binary64.solve_fire asin cos atan2
    (0, 0) (1, 0) (0, 0) (0, 0) (0, 0) 1e-200 false 12 1e-3
    = Raise (ZeroDivisionError "float division by zero") /\
  (0 <? 1e200) = true /\ is_finite 1e200 = true /\
  Binary64.solve_fire asin cos atan2
    (0, 0) (1, 0) (0, 0) (0, 0) (0, 0) 1e200 false 12 1e-3
    = Raise (OverflowError "(34, 'Numerical result out of range')").
Proof. repeat split; vm_compute; reflexivity. Qed.

(** With a muzzle speed of 0, [angle_for_range] raises the
    [ZeroDivisionError] of [g * R / (v0 ** 2)] whatever the range and the
    gravity, over the reals and on binary64 alike. *)
Theorem angle_for_range_zero_speed_raises :
  (forall Rng g : R,
     angle_for_range 0%R Rng g
       = Raise (ZeroDivisionError "float division by zero")) /\
  (forall Rng g : float,
     Binary64.angle_for_range asin 0 Rng g
       = Raise (ZeroDivisionError "float division by zero")).
Proof.
  split.
  - exact angle_for_range_zero_speed.
  - intros Rng g. reflexivity.
Qed.

End Binary64Facts.
